(** * A shallow embedding of [online_judge_tester.py]

    The harness runs a candidate script on every [*.in] file of a test
    directory, classifies each run (AC, WA, TLE, RE, MISSING) and reports
    a line diff on a wrong answer.  Each method of [OnlineJudgeTester] is
    embedded below under its own name; effects (the spawned process, the
    file system, printing, [sys.exit]) are explicit. *)

From Stdlib Require Import ZArith QArith List String Ascii DecimalString DecimalZ Sorted Lia.
From stdpp Require Import base gmap strings list.

Local Open Scope Z_scope.

(** ** The Python built-ins the harness calls

    Text is a [string].  The character classes are Python's on the ASCII
    range; a character above 127 is treated as an ordinary printable
    character, so the embedding speaks about ASCII text. *)

Module Py.

Definition code (c : ascii) : nat := nat_of_ascii c.

Definition between (lo hi n : nat) : bool := (lo <=? n)%nat && (n <=? hi)%nat.

(** The line boundaries of [str.splitlines]: LF, VT, FF, CR, FS, GS, RS. *)
Definition is_linebreak (c : ascii) : bool :=
  between 10 13 (code c) || between 28 30 (code c).

(** [str.isspace] on one character: TAB..CR, FS..US and the space. *)
Definition is_space (c : ascii) : bool :=
  between 9 13 (code c) || between 28 32 (code c).

Definition is_digit (c : ascii) : bool := between 48 57 (code c).

Definition CR : ascii := ascii_of_nat 13.
Definition LF : ascii := ascii_of_nat 10.
Definition TAB : ascii := ascii_of_nat 9.
Definition QUOTE : ascii := ascii_of_nat 39.
Definition DQUOTE : ascii := ascii_of_nat 34.
Definition BACKSLASH : ascii := ascii_of_nat 92.

Definition chr (c : ascii) : string := String c EmptyString.

(** [bool(s)] of a string. *)
Definition truthy (s : string) : bool :=
  match s with EmptyString => false | String _ _ => true end.

(** [str.splitlines()]: [cur] is the line being read, [None] at the
    start of a line; CR LF counts as one boundary and no empty line is
    produced after the last boundary. *)
Fixpoint splitlines_from (cur : option string) (s : string) : list string :=
  match s with
  | EmptyString => match cur with None => [] | Some l => [l] end
  | String c rest =>
      let l := default EmptyString cur in
      if is_linebreak c then
        if Ascii.eqb c CR then
          match rest with
          | String c' rest' =>
              if Ascii.eqb c' LF then l :: splitlines_from None rest'
              else l :: splitlines_from None rest
          | EmptyString => l :: splitlines_from None rest
          end
        else l :: splitlines_from None rest
      else splitlines_from (Some (l +:+ chr c)) rest
  end.

Definition splitlines (s : string) : list string := splitlines_from None s.

Fixpoint lstrip (s : string) : string :=
  match s with
  | EmptyString => EmptyString
  | String c rest => if is_space c then lstrip rest else s
  end.

Fixpoint rstrip (s : string) : string :=
  match s with
  | EmptyString => EmptyString
  | String c rest =>
      let r := rstrip rest in
      if is_space c && negb (truthy r) then EmptyString else String c r
  end.

(** [str.strip()] with no argument. *)
Definition strip (s : string) : string := rstrip (lstrip s).

Fixpoint all_digits (s : string) : bool :=
  match s with
  | EmptyString => true
  | String c rest => is_digit c && all_digits rest
  end.

(** [str.isdigit()]: at least one character, all of them digits. *)
Definition isdigit (s : string) : bool := truthy s && all_digits s.

Fixpoint int_from (acc : Z) (s : string) : Z :=
  match s with
  | EmptyString => acc
  | String c rest => int_from (10 * acc + Z.of_nat (code c - 48)) rest
  end.

(** [int(s)] for a string of decimal digits. *)
Definition int (s : string) : Z := int_from 0 s.

(** [str(n)] and the [{n}] of an f-string, for an integer. *)
Definition str_of_int (z : Z) : string := NilZero.string_of_int (Z.to_int z).

(** [sub in s]. *)
Fixpoint contains (sub s : string) : bool :=
  String.prefix sub s ||
  match s with
  | EmptyString => false
  | String _ rest => contains sub rest
  end.

(** [sep.join(parts)]. *)
Fixpoint join (sep : string) (parts : list string) : string :=
  match parts with
  | [] => EmptyString
  | [p] => p
  | p :: rest => p +:+ sep +:+ join sep rest
  end.

(** [re.findall(r"\d+", s)]: the maximal digit runs, left to right;
    [run] is the run being read. *)
Fixpoint findall_digits_from (run : string) (s : string) : list string :=
  match s with
  | EmptyString => if truthy run then [run] else []
  | String c rest =>
      if is_digit c then findall_digits_from (run +:+ chr c) rest
      else if truthy run then run :: findall_digits_from EmptyString rest
      else findall_digits_from EmptyString rest
  end.

Definition findall_digits (s : string) : list string :=
  findall_digits_from EmptyString s.

Definition hex_digit (n : nat) : ascii :=
  if (n <? 10)%nat then ascii_of_nat (48 + n) else ascii_of_nat (87 + n).

Definition repr_char (quote c : ascii) : string :=
  if Ascii.eqb c quote || Ascii.eqb c BACKSLASH then String BACKSLASH (chr c)
  else if Ascii.eqb c TAB then String BACKSLASH "t"
  else if Ascii.eqb c LF then String BACKSLASH "n"
  else if Ascii.eqb c CR then String BACKSLASH "r"
  else if (code c <? 32)%nat || (code c =? 127)%nat then
    String BACKSLASH
      (String "x" (String (hex_digit (code c / 16)) (chr (hex_digit (code c mod 16)))))
  else chr c.

Fixpoint repr_body (quote : ascii) (s : string) : string :=
  match s with
  | EmptyString => EmptyString
  | String c rest => repr_char quote c +:+ repr_body quote rest
  end.

(** [repr(s)] of a string: single quotes, unless the text holds a
    single quote and no double quote. *)
Definition repr (s : string) : string :=
  let quote :=
    if contains (chr QUOTE) s && negb (contains (chr DQUOTE) s)
    then DQUOTE else QUOTE in
  chr quote +:+ repr_body quote s +:+ chr quote.

End Py.

Definition NL : string := Py.chr Py.LF.

(** ** Data model *)

(** A [pathlib.Path], kept as its parent directory, stem and suffix. *)
Record path := mkPath { parent : string; stem : string; suffix : string }.

Definition path_name (p : path) : string := stem p +:+ suffix p.
Definition path_str (p : path) : string := parent p +:+ "/" +:+ path_name p.
Definition with_suffix (p : path) (s : string) : path :=
  mkPath (parent p) (stem p) s.

(** Elapsed milliseconds: a float in the source, measured by the clock and
    never computed with; the only constant is [0.0]. *)
Definition millis := Q.

Record TestResult := mkTestResult {
  case_name : string;
  status : string;
  execution_times : list millis;
  output : string;
  error_message : string
}.

Definition STATUS_AC : string := "AC".
Definition STATUS_WA : string := "WA".
Definition STATUS_TLE : string := "TLE".
Definition STATUS_RE : string := "RE".
Definition STATUS_MISSING : string := "MISSING".

(** The fields [__init__] stores on the tester. *)
Record OnlineJudgeTester := mkTester {
  time_limit : Z;
  compare_output : bool;
  max_diffs : option Z;
  show_missing_output : bool;
  target_script : path;
  test_case_dir : string
}.

(** A discovered case: the input path and the expected-output path, if any. *)
Definition test_case : Type := path * option path.

(** A filter token of [cases_to_run]: [Union[int, str]]. *)
Inductive token :=
| IntToken (n : Z)
| StrToken (s : string).

(** ** The comparator: [_compare_output] *)

(** The inner [process_lines] of the lenient branch; [processed] is the
    list the loop appends to. *)
Fixpoint process_lines_loop (lines processed : list string) : list string :=
  match lines with
  | [] => processed
  | line :: rest =>
      let stripped := Py.strip line in
      if Py.truthy stripped then process_lines_loop rest (processed ++ [stripped])
      else process_lines_loop rest processed
  end.

Definition process_lines (text : string) : list string :=
  process_lines_loop (Py.splitlines text) [].

Definition list_eqb (a b : list string) : bool :=
  bool_decide (a = b).

Definition INSUFFICIENT : string := "Error: Insufficient output lines.".
Definition EOF_MARK : string := "<EOF>".

(** The f-string of one rendered mismatch. *)
Definition diff_entry (i : nat) (line_act line_exp : string) : string :=
  "line " +:+ Py.str_of_int (Z.of_nat i + 1) +:+ ": got:    " +:+ Py.repr line_act
  +:+ NL +:+ "        expect: " +:+ Py.repr line_exp.

Definition more_differences (n : Z) : string :=
  "... and " +:+ Py.str_of_int n +:+ " more differences.".

(** The [for i in range(max_len)] loop; the state is
    [(error_msg_lines, diff_count)], and the [break] returns it at once. *)
Fixpoint diff_loop (cap : option Z) (act_lines exp_lines : list string)
    (indices : list nat) (st : list string * Z) : list string * Z :=
  match indices with
  | [] => st
  | i :: rest =>
      let '(error_msg_lines, diff_count) := st in
      match act_lines !! i with
      | None => (error_msg_lines ++ [INSUFFICIENT], diff_count)
      | Some line_act =>
          let line_exp := default EOF_MARK (exp_lines !! i) in
          if negb (String.eqb line_act line_exp) then
            let diff_count := diff_count + 1 in
            let shown :=
              match cap with
              | None => true
              | Some m => diff_count <=? m
              end in
            if shown then
              diff_loop cap act_lines exp_lines rest
                (error_msg_lines ++ [diff_entry i line_act line_exp], diff_count)
            else diff_loop cap act_lines exp_lines rest (error_msg_lines, diff_count)
          else diff_loop cap act_lines exp_lines rest st
      end
  end.

(** The report of a wrong answer: the loop, then the trailing summary. *)
Definition wa_report (cap : option Z) (act_lines exp_lines : list string) : list string :=
  let max_len := Nat.max (length act_lines) (length exp_lines) in
  let '(error_msg_lines, diff_count) :=
    diff_loop cap act_lines exp_lines (seq 0 max_len) ([], 0) in
  match cap with
  | Some m =>
      if m <? diff_count
      then error_msg_lines ++ [more_differences (diff_count - m)]
      else error_msg_lines
  | None => error_msg_lines
  end.

(** The lines that are compared, after the pre-processing of either mode. *)
Definition compared_lines (strict : bool) (text : string) : list string :=
  if strict then Py.splitlines text else process_lines text.

(** The body of [_compare_output] below the reading of the expected file;
    [cap] is [self.max_diffs]. *)
Definition compare_text (cap : option Z)
    (actual_output expected_output : string) (strict : bool) : string * string :=
  if strict && String.eqb actual_output expected_output then (STATUS_AC, EmptyString)
  else
    let act_lines := compared_lines strict actual_output in
    let exp_lines := compared_lines strict expected_output in
    if list_eqb act_lines exp_lines then (STATUS_AC, EmptyString)
    else (STATUS_WA, Py.join NL (wa_report cap act_lines exp_lines)).

(** *** The report as the specification words it

    A mismatch is a position of the actual lines whose line differs from
    the expected line there, [<EOF>] standing for an expected line past
    the end. *)
Definition expected_at (exp_lines : list string) (i : nat) : string :=
  default EOF_MARK (exp_lines !! i).

Fixpoint mismatches_from (i : nat) (act_lines exp_lines : list string)
    : list (nat * string * string) :=
  match act_lines with
  | [] => []
  | a :: rest =>
      let e := expected_at exp_lines i in
      if String.eqb a e then mismatches_from (S i) rest exp_lines
      else (i, a, e) :: mismatches_from (S i) rest exp_lines
  end.

Definition mismatches (act_lines exp_lines : list string) : list (nat * string * string) :=
  mismatches_from 0 act_lines exp_lines.

Definition render (m : nat * string * string) : string :=
  diff_entry m.1.1 m.1.2 m.2.

(** The note that the actual output ran out of lines first. *)
Definition insufficient_note (act_lines exp_lines : list string) : list string :=
  if (length act_lines <? length exp_lines)%nat then [INSUFFICIENT] else [].

Definition wa_report_spec (cap : option Z) (act_lines exp_lines : list string) : list string :=
  let ms := mismatches act_lines exp_lines in
  let count := Z.of_nat (length ms) in
  match cap with
  | None => map render ms ++ insufficient_note act_lines exp_lines
  | Some m =>
      map render (take (Z.to_nat m) ms) ++ insufficient_note act_lines exp_lines
      ++ (if m <? count then [more_differences (count - m)] else [])
  end.

(** The entries a cap lets through when [dc] mismatches were counted
    before them (the loop invariant of [diff_loop]). *)
Definition shown_after (cap : option Z) (dc : Z) (ms : list (nat * string * string))
    : list (nat * string * string) :=
  match cap with
  | None => ms
  | Some m => take (Z.to_nat (m - dc)) ms
  end.

(** Lenient pre-processing as the specification words it: trim every line,
    keep the lines that are not empty after trimming. *)
Definition lenient_lines (text : string) : list string :=
  List.filter Py.truthy (map Py.strip (Py.splitlines text)).

(** ** The case store: [_collect_test_cases] and [_filter_test_cases] *)

(** A Python exception that leaves the harness. *)
Inductive exn :=
| FileNotFoundError (msg : string)
| TypeError (msg : string).

Inductive result (A : Type) :=
| Ok (a : A)
| Err (e : exn).
Arguments Ok {A} a.
Arguments Err {A} e.

(** What [sort_key] returns: an [int] or a [str]. *)
Inductive key :=
| KInt (n : Z)
| KStr (s : string).

Definition sort_key (item : test_case) : key :=
  let name := stem item.1 in
  match Py.findall_digits name with
  | number :: _ => KInt (Py.int number)
  | [] => KStr name
  end.

(** [a < b] on two keys, as the sort evaluates it: integers by value,
    strings by code point, and no order between an [int] and a [str]. *)
Definition key_lt (a b : key) : result bool :=
  match a, b with
  | KInt x, KInt y => Ok (x <? y)
  | KStr s, KStr t => Ok (String.ltb s t)
  | KInt _, KStr _ => Err (TypeError "'<' not supported between instances of 'int' and 'str'")
  | KStr _, KInt _ => Err (TypeError "'<' not supported between instances of 'str' and 'int'")
  end.

(** [list.sort(key=...)]: a stable sort that uses [<] on the keys only and
    stops at the first comparison that raises.  It is written as an insertion
    sort; every sort by comparisons yields the same list when no comparison
    raises, and has to compare an [int] key with a [str] key when both
    occur. *)
Fixpoint insert_by_key {A : Type} (x : key * A) (sorted : list (key * A))
    : result (list (key * A)) :=
  match sorted with
  | [] => Ok [x]
  | y :: rest =>
      match key_lt y.1 x.1 with
      | Err e => Err e
      | Ok true =>
          match insert_by_key x rest with
          | Ok r => Ok (y :: r)
          | Err e => Err e
          end
      | Ok false => Ok (x :: sorted)
      end
  end.

Fixpoint sort_keyed {A : Type} (l : list (key * A)) : result (list (key * A)) :=
  match l with
  | [] => Ok []
  | x :: rest =>
      match sort_keyed rest with
      | Ok r => insert_by_key x r
      | Err e => Err e
      end
  end.

Definition sort_by {A : Type} (f : A -> key) (l : list A) : result (list A) :=
  match sort_keyed (map (fun a => (f a, a)) l) with
  | Ok r => Ok (map snd r)
  | Err e => Err e
  end.

(** The file system as discovery sees it. *)
Record file_system := {
  dir_exists : string -> bool;
  glob_in : string -> list path;       (* [dir.glob("*.in")], in the order of the OS *)
  file_exists : path -> bool;
  read_utf8 : path -> option string;   (* [None]: UnicodeDecodeError *)
  read_latin1 : path -> string
}.

Definition pair_case (fs : file_system) (input_path : path) : test_case :=
  let output_path := with_suffix input_path ".out" in
  (input_path, if file_exists fs output_path then Some output_path else None).

Definition _collect_test_cases (fs : file_system) (self : OnlineJudgeTester)
    : result (list test_case) :=
  if negb (dir_exists fs (test_case_dir self)) then Ok []
  else sort_by sort_key (map (pair_case fs) (glob_in fs (test_case_dir self))).

Definition token_matches (case_name : string) (t : token) : bool :=
  match t with
  | IntToken n => Py.isdigit case_name && (Py.int case_name =? n)
  | StrToken s => Py.contains s case_name
  end.

(** The inner [for token in cases_to_run] with its [break]. *)
Fixpoint matched_by (case_name : string) (tokens : list token) : bool :=
  match tokens with
  | [] => false
  | t :: rest => if token_matches case_name t then true else matched_by case_name rest
  end.

(** The outer loop; [filtered_cases] is the list it appends to. *)
Fixpoint filter_loop (tokens : list token) (all_cases filtered_cases : list test_case)
    : list test_case :=
  match all_cases with
  | [] => filtered_cases
  | (input_path, output_path) :: rest =>
      if matched_by (stem input_path) tokens
      then filter_loop tokens rest (filtered_cases ++ [(input_path, output_path)])
      else filter_loop tokens rest filtered_cases
  end.

(** [bool(cases_to_run)]: false for [None] and for the empty list. *)
Definition requested (cases_to_run : option (list token)) : bool :=
  match cases_to_run with
  | None | Some [] => false
  | Some (_ :: _) => true
  end.

Definition _filter_test_cases (all_cases : list test_case)
    (cases_to_run : option (list token)) : list test_case :=
  if negb (requested cases_to_run) then all_cases
  else filter_loop (default [] cases_to_run) all_cases [].

(** ** The host of a run: processes, environment, tracebacks *)

Record spawn_request := {
  cmd : list string;
  cwd : string;
  env : gmap string string;
  stdin_text : string;
  timeout_s : Q
}.

(** A value that may be [None], a [str] or [bytes]. *)
Inductive captured :=
| PyNone
| PyStr (s : string)
| PyBytes (b : string).

(** The second [communicate(timeout=0.2)], after the kill. *)
Inductive drain :=
| Drained (stdout stderr : string) (returncode : Z)
| DrainFailed.

(** What [Popen] and the first [communicate] do. *)
Inductive proc_event :=
| Completed (returncode : Z) (stdout stderr : string) (duration : millis)
| TimedOut (duration : millis) (e_stdout e_stderr : captured) (d : drain)
| Failed (description : string).      (* any other [Exception]; its [str(e)] *)

Record frame := { filename : string; lineno : Z; name : string; line : string }.

(** What the candidate's entry routine does when called in process. *)
Inductive sol_outcome :=
| SolReturned
| SolRaised (tb : list frame) (exception_only : list string).

Record host (World : Type) := {
  executable : string;                     (* [sys.executable] *)
  environ : gmap string string;            (* [os.environ] *)
  popen : spawn_request -> World -> proc_event * World;
  fs : file_system;
  module_file : string;                    (* [__file__] *)
  abspath : string -> string;              (* [os.path.abspath] *)
  format_list : list frame -> list string  (* [traceback.format_list] *)
}.
Arguments executable {World} h.
Arguments environ {World} h.
Arguments popen {World} h.
Arguments fs {World} h.
Arguments module_file {World} h.
Arguments abspath {World} h.
Arguments format_list {World} h.

(** What the harness does to the outside, in order. *)
Inductive event :=
| EvSpawn (req : spawn_request)
| EvPrint (text : string)
| EvReport (r : TestResult) (show_raw_output : bool)   (* [_print_test_result] *)
| EvCall                                               (* [sol_func()] *)
| EvFlush                                              (* [sys.stdout.flush()] *)
| EvStderr (text : string).

Record state (World : Type) := mkState { world : World; log : list event }.
Arguments mkState {World} world log.
Arguments world {World} s.
Arguments log {World} s.

Definition emit {World : Type} (e : event) (st : state World) : state World :=
  mkState (world st) (log st ++ [e]).

(** How a call ends: it returns, raises, or leaves through [sys.exit]. *)
Inductive outcome (A : Type) :=
| Return (a : A)
| Raise (e : exn)
| SysExit (code : Z).
Arguments Return {A} a.
Arguments Raise {A} e.
Arguments SysExit {A} code.

Definition M (World A : Type) : Type := state World -> outcome A * state World.

Definition bind {World A B : Type} (m : M World A) (k : A -> M World B) : M World B :=
  fun st =>
    match m st with
    | (Return a, st') => k a st'
    | (Raise e, st') => (Raise e, st')
    | (SysExit c, st') => (SysExit c, st')
    end.

Definition ret {World A : Type} (a : A) : M World A := fun st => (Return a, st).
Definition raise {World A : Type} (e : exn) : M World A := fun st => (Raise e, st).
Definition sys_exit {World A : Type} (c : Z) : M World A := fun st => (SysExit c, st).
Definition tell {World : Type} (e : event) : M World unit :=
  fun st => (Return tt, emit e st).
Definition lift {World A : Type} (f : state World -> A * state World) : M World A :=
  fun st => let '(a, st') := f st in (Return a, st').
Definition of_result {World A : Type} (r : result A) : M World A :=
  match r with Ok a => ret a | Err e => raise e end.

Notation "x <- m ;; k" := (bind m (fun x => k))
  (at level 100, m at next level, right associativity).
Notation "m ;;; k" := (bind m (fun _ => k))
  (at level 100, right associativity).

(** ** The process runner: [_run_single_process] *)

Definition MARKER : string := "OJ_CHILD_PROCESS".

(** [bool(x)] of a captured value. *)
Definition captured_truthy (c : captured) : bool :=
  match c with
  | PyNone => false
  | PyStr s => Py.truthy s
  | PyBytes b => Py.truthy b
  end.

(** [b.decode("utf-8", errors="replace")]; the identity on ASCII bytes. *)
Definition decode_utf8 (b : string) : string := b.

(** The [TimeoutExpired] handler from the kill on: the second
    [communicate], the fall-back on what the exception carries, the
    decoding of bytes and the final choice of the empty text for a falsy
    [stdout].  The standard error goes through the same steps and is then
    dropped, so it is left out. *)
Definition salvage (e_stdout : captured) (d : drain) : string :=
  let stdout :=
    match d with
    | Drained out _ _ => PyStr out
    | DrainFailed => if captured_truthy e_stdout then e_stdout else PyStr EmptyString
    end in
  let stdout :=
    match stdout with
    | PyBytes b => PyStr (decode_utf8 b)
    | other => other
    end in
  match stdout with
  | PyStr s => if Py.truthy s then s else EmptyString
  | _ => EmptyString
  end.

Section Harness.

Context {World : Type}.
Variable h : host World.
Variable self : OnlineJudgeTester.

Definition child_env : gmap string string :=
  <[MARKER := "1"%string]> (<["PYTHONUNBUFFERED"%string := "1"%string]> (environ h)).

Definition request_for (input_str : string) : spawn_request :=
  {| cmd := [executable h; "-u"%string; path_str (target_script self)];
     cwd := parent (target_script self);
     env := child_env;
     stdin_text := input_str;
     timeout_s := (inject_Z (time_limit self) / 1000)%Q |}.

(** Returns [(status, output, duration_ms, error_message)]. *)
Definition _run_single_process (input_str : string) (st : state World)
    : (string * string * millis * string) * state World :=
  let req := request_for input_str in
  let '(ev, w) := popen h req (world st) in
  let st' := mkState w (log st ++ [EvSpawn req]) in
  match ev with
  | Completed returncode stdout stderr duration =>
      if negb (returncode =? 0) then ((STATUS_RE, stdout, duration, stderr), st')
      else ((STATUS_AC, stdout, duration, EmptyString), st')
  | TimedOut duration e_stdout e_stderr d =>
      ((STATUS_TLE, salvage e_stdout d, duration, EmptyString), st')
  | Failed description =>
      ((STATUS_RE, EmptyString, 0%Q, description), st')
  end.

(** ** The repeat controller: [_execute_case_with_repeat] *)

(** [path.read_text(encoding="utf-8")] with the latin-1 fall-back. *)
Definition read_text (p : path) : string :=
  match read_utf8 (fs h) p with
  | Some text => text
  | None => read_latin1 (fs h) p
  end.

(** The [for i in range(repeat)] loop with [n] rounds left; [acc] is
    [(final_status, execution_times, final_output, final_error)]. *)
Fixpoint repeat_loop (n : nat) (input_content : string)
    (acc : string * list millis * string * string) (st : state World)
    : (string * list millis * string * string) * state World :=
  match n with
  | O => (acc, st)
  | S n' =>
      let '(_, execution_times, _, _) := acc in
      let '((status, output, duration, error_msg), st') :=
        _run_single_process input_content st in
      let acc' := (status, execution_times ++ [duration], output, error_msg) in
      if negb (String.eqb status STATUS_AC) then (acc', st')
      else repeat_loop n' input_content acc' st'
  end.

Definition _execute_case_with_repeat (input_path : path) (repeat : Z) (st : state World)
    : (string * list millis * string * string) * state World :=
  let input_content := read_text input_path in
  repeat_loop (Z.to_nat repeat) input_content
    (EmptyString, [], EmptyString, EmptyString) st.

(** ** [_compare_output], reading the expected file first *)

Definition _compare_output (actual_output : string) (expected_path : path) (strict : bool)
    : string * string :=
  compare_text (max_diffs self) actual_output (read_text expected_path) strict.

(** ** The recursion guard: [_handle_child_process] *)

(** The frames that do not come from the harness's own file. *)
Fixpoint user_frames (current_file : string) (tb_list filtered_tb : list frame)
    : list frame :=
  match tb_list with
  | [] => filtered_tb
  | f :: rest =>
      if negb (String.eqb (abspath h (filename f)) current_file)
      then user_frames current_file rest (filtered_tb ++ [f])
      else user_frames current_file rest filtered_tb
  end.

Definition concat_text (parts : list string) : string := Py.join EmptyString parts.

Definition diagnostic (tb : list frame) (exception_only : list string) : string :=
  let current_file := abspath h (module_file h) in
  let filtered_tb := user_frames current_file tb [] in
  ("Traceback (most recent call last):" +:+ NL)
  +:+ concat_text (format_list h filtered_tb)
  +:+ concat_text exception_only.

Definition _handle_child_process (sol_func : World -> sol_outcome * World)
    : M World unit :=
  if negb (bool_decide (environ h !! MARKER = Some "1"%string)) then ret tt
  else
    r <- lift (fun st =>
           let '(r, w) := sol_func (world st) in
           (r, mkState w (log st ++ [EvCall]))) ;;
    match r with
    | SolReturned => tell EvFlush ;;; sys_exit 0
    | SolRaised tb exception_only =>
        tell (EvStderr (diagnostic tb exception_only)) ;;; sys_exit 1
    end.

(** ** The orchestrator: [run_tests] *)

Definition repr_token (t : token) : string :=
  match t with
  | IntToken n => Py.str_of_int n
  | StrToken s => Py.repr s
  end.

(** The [{cases_to_run}] of the warning: the [repr] of the list. *)
Definition repr_tokens (cases_to_run : option (list token)) : string :=
  match cases_to_run with
  | None => "None"
  | Some ts => "[" +:+ Py.join ", " (map repr_token ts) +:+ "]"
  end.

Definition missing_message (case_name : string) : string :=
  "找不到對應的 " +:+ case_name +:+ ".out 檔案".

(** Step 4 of the loop body: the verdict after the run. *)
Definition judge (strict_comparison : bool) (case_name : string)
    (expected_path : option path) (status output error_msg : string)
    : string * string :=
  if String.eqb status STATUS_AC && compare_output self then
    match expected_path with
    | Some p =>
        let '(cmp_status, cmp_msg) := _compare_output output p strict_comparison in
        (cmp_status,
         if negb (String.eqb cmp_status STATUS_AC) then cmp_msg else error_msg)
    | None => (STATUS_MISSING, missing_message case_name)
    end
  else (status, error_msg).

(** One round of [for input_path, expected_path in target_cases]. *)
Definition run_case (strict_comparison : bool) (repeat : Z) (show_raw_output : bool)
    (c : test_case) (st : state World) : TestResult * state World :=
  let '(input_path, expected_path) := c in
  let case_name := stem input_path in
  let '((status, exec_times, output, error_msg), st1) :=
    _execute_case_with_repeat input_path repeat st in
  let '(status, error_msg) :=
    judge strict_comparison case_name expected_path status output error_msg in
  let result := mkTestResult case_name status exec_times output error_msg in
  (result, emit (EvReport result show_raw_output) st1).

Fixpoint run_cases (strict_comparison : bool) (repeat : Z) (show_raw_output : bool)
    (target_cases : list test_case) (results : list TestResult) (st : state World)
    : list TestResult * state World :=
  match target_cases with
  | [] => (results, st)
  | c :: rest =>
      let '(result, st') := run_case strict_comparison repeat show_raw_output c st in
      run_cases strict_comparison repeat show_raw_output rest (results ++ [result]) st'
  end.

Definition RULE : string := "----------------------------------------".

(** [run_tests] below the guard. *)
Definition orchestrate (strict_comparison : bool) (repeat : Z)
    (cases_to_run : option (list token)) (show_raw_output : bool)
    : M World (list TestResult) :=
  all_cases <- of_result (_collect_test_cases (fs h) self) ;;
  if bool_decide (all_cases = []) && negb (requested cases_to_run) then
    raise (FileNotFoundError ("No .in files found in " +:+ test_case_dir self))
  else
    let target_cases := _filter_test_cases all_cases cases_to_run in
    if requested cases_to_run && bool_decide (target_cases = []) then
      tell (EvPrint ("[WARNING] No cases matched filter: " +:+ repr_tokens cases_to_run)) ;;;
      ret []
    else
      tell (EvPrint ("=== Running Tests on " +:+ path_name (target_script self) +:+ " ===")) ;;;
      tell (EvPrint ("Target: " +:+ path_str (target_script self))) ;;;
      tell (EvPrint ("Cases: " +:+ Py.str_of_int (Z.of_nat (length target_cases))
                     +:+ " selected")) ;;;
      tell (EvPrint RULE) ;;;
      lift (run_cases strict_comparison repeat show_raw_output target_cases []).

Definition run_tests (sol_func : World -> sol_outcome * World)
    (strict_comparison : bool) (repeat : Z)
    (cases_to_run : option (list token)) (show_raw_output : bool)
    : M World (list TestResult) :=
  _handle_child_process sol_func ;;;
  orchestrate strict_comparison repeat cases_to_run show_raw_output.

End Harness.

(** *** The attempts as the specification counts them *)

Definition run_status (r : string * string * millis * string) : string := r.1.1.1.
Definition run_output (r : string * string * millis * string) : string := r.1.1.2.
Definition run_duration (r : string * string * millis * string) : millis := r.1.2.
Definition run_error (r : string * string * millis * string) : string := r.2.

(** [n] runs of the process runner, one after the other, whatever they
    answer. *)
Fixpoint attempts {World : Type} (h : host World) (self : OnlineJudgeTester)
    (n : nat) (input_content : string) (st : state World)
    : list (string * string * millis * string) * state World :=
  match n with
  | O => ([], st)
  | S n' =>
      let '(r, st') := _run_single_process h self input_content st in
      let '(rs, st'') := attempts h self n' input_content st' in
      (r :: rs, st'')
  end.

(** How many attempts are made: up to and with the first that is not AC. *)
Fixpoint stop_after (rs : list (string * string * millis * string)) : nat :=
  match rs with
  | [] => O
  | r :: rest =>
      if String.eqb (run_status r) STATUS_AC then S (stop_after rest) else 1%nat
  end.

(** The answer of the controller for the attempts made, [start] when none
    was made. *)
Definition repeat_answer (start : string * list millis * string * string)
    (made : list (string * string * millis * string))
    : string * list millis * string * string :=
  match last made with
  | None => start
  | Some r =>
      (run_status r, start.1.1.2 ++ map run_duration made, run_output r, run_error r)
  end.

(** ** A small host to run the embedding on

    A directory [cases] with [1.in], [1.out] and [2.in]; the candidate
    greets the text it reads and exits with status 0 after one
    millisecond.  The world counts the processes spawned. *)

Definition demo_fs : file_system :=
  {| dir_exists := fun _ => true;
     glob_in := fun d => [mkPath d "2" ".in"; mkPath d "1" ".in"];
     file_exists := fun p => String.eqb (stem p) "1";
     read_utf8 := fun p =>
       Some (if String.eqb (suffix p) ".in" then "Ada"%string else "hello, Ada"%string);
     read_latin1 := fun _ => EmptyString |}.

Definition demo_host : host nat :=
  {| executable := "python3";
     environ := ∅;
     popen := fun req w =>
       (Completed 0 ("hello, " +:+ stdin_text req) EmptyString 1%Q, S w);
     fs := demo_fs;
     module_file := "online_judge_tester.py";
     abspath := fun s => s;
     format_list := map filename |}.

Definition demo_tester : OnlineJudgeTester :=
  {| time_limit := 3000;
     compare_output := true;
     max_diffs := Some 10;
     show_missing_output := false;
     target_script := mkPath "/work" "solve" ".py";
     test_case_dir := "/work/test_case" |}.

Definition demo_state : state nat := mkState 0%nat [].

(** The candidate's routine when called in process: it returns. *)
Definition demo_sol (w : nat) : sol_outcome * nat := (SolReturned, w).

(** A directory that holds [1.in] and [abc.in], and no expected output. *)
Definition mixed_fs : file_system :=
  {| dir_exists := fun _ => true;
     glob_in := fun d => [mkPath d "1" ".in"; mkPath d "abc" ".in"];
     file_exists := fun _ => false;
     read_utf8 := fun _ => Some EmptyString;
     read_latin1 := fun _ => EmptyString |}.

Definition is_int_key (k : key) : bool :=
  match k with KInt _ => true | KStr _ => false end.

Definition key_value (k : key) : Z :=
  match k with KInt n => n | KStr _ => 0 end.

(** The demo host with no test directory at all. *)
Definition bare_host : host nat :=
  {| executable := executable demo_host;
     environ := environ demo_host;
     popen := popen demo_host;
     fs := {| dir_exists := fun _ => false;
              glob_in := fun _ => [];
              file_exists := fun _ => false;
              read_utf8 := fun _ => None;
              read_latin1 := fun _ => EmptyString |};
     module_file := module_file demo_host;
     abspath := abspath demo_host;
     format_list := format_list demo_host |}.

(** ** The report printer: [_print_test_result] *)

(** What the printer takes from the float library: [f"{x:.2f}"] and
    [statistics.mean]. *)
Record float_format := {
  fmt2 : millis -> string;
  mean : list millis -> millis
}.

(** [max(xs)] and [min(xs)]: the first greatest and the first least
    element; [best] is the one kept so far. *)
Fixpoint max_from (best : millis) (xs : list millis) : millis :=
  match xs with
  | [] => best
  | x :: rest => if Qle_bool x best then max_from best rest else max_from x rest
  end.

Fixpoint min_from (best : millis) (xs : list millis) : millis :=
  match xs with
  | [] => best
  | x :: rest => if Qle_bool best x then min_from best rest else min_from x rest
  end.

Definition time_str (ff : float_format) (exec_times : list millis) : string :=
  match exec_times with
  | [] => "N/A"
  | [t] => fmt2 ff t +:+ "ms"
  | t :: rest =>
      fmt2 ff (mean ff exec_times) +:+ "ms (min:" +:+ fmt2 ff (min_from t rest)
      +:+ ", max:" +:+ fmt2 ff (max_from t rest) +:+ ")"
  end.

Definition raw_output_block (title : string) (result : TestResult) : list string :=
  [title; output result; "  [End Raw Output]"%string].

(** The arguments of the [print] calls of [_print_test_result], in order. *)
Definition _print_test_result (ff : float_format) (self : OnlineJudgeTester)
    (result : TestResult) (show_raw_output : bool) : list string :=
  [("[" +:+ case_name result +:+ "] Status: " +:+ status result
    +:+ " | Time: " +:+ time_str ff (execution_times result))%string]
  ++ (if String.eqb (status result) STATUS_WA then
        "  [Wrong Answer Info]"%string
        :: map (fun line => "    " +:+ line) (Py.splitlines (error_message result))
      else if String.eqb (status result) STATUS_RE then
        ["  [Runtime Error Info]"%string; error_message result]
      else if String.eqb (status result) STATUS_TLE then
        ["  [Time Limit Exceeded]"%string]
      else if String.eqb (status result) STATUS_MISSING then
        ("  [Info] " +:+ error_message result)
        :: (if show_missing_output self
            then raw_output_block "  [Raw Output (Missing .out)]" result
            else [])
      else [])
  ++ (if show_raw_output then raw_output_block "  [Raw Output]" result else [])
  ++ [RULE].

(** ** The constructor and the command line *)

(** [pathlib.Path(p).resolve()], for the script and for the directory. *)
Record resolver := {
  resolve : string -> path;
  resolve_dir : string -> string
}.

(** [OnlineJudgeTester.__init__]. *)
Definition __init__ (rs : resolver) (fsys : file_system)
    (target_script_path : string) (time_limit : Z) (compare_output : bool)
    (test_case_path : option string) (max_diffs : option Z)
    (show_missing_output : bool) : result OnlineJudgeTester :=
  let target_script := resolve rs target_script_path in
  if negb (file_exists fsys target_script)
  then Err (FileNotFoundError ("Target script not found: " +:+ path_str target_script))
  else
    let test_case_dir :=
      match test_case_path with
      | Some p => if Py.truthy p then resolve_dir rs p
                  else parent target_script +:+ "/test_case"
      | None => parent target_script +:+ "/test_case"
      end in
    Ok (mkTester time_limit compare_output max_diffs show_missing_output
          target_script test_case_dir).






(** ** Notions the properties below speak of *)

(** No character of the text is a line boundary. *)
Fixpoint one_line (s : string) : bool :=
  match s with
  | EmptyString => true
  | String c rest => negb (Py.is_linebreak c) && one_line rest
  end.

(** The two printed lines of one rendered mismatch. *)
Definition got_line (m : nat * string * string) : string :=
  "line " +:+ Py.str_of_int (Z.of_nat m.1.1 + 1) +:+ ": got:    " +:+ Py.repr m.1.2.

Definition expect_line (m : nat * string * string) : string :=
  "        expect: " +:+ Py.repr m.2.

Definition is_spawn (e : event) : bool :=
  match e with EvSpawn _ => true | _ => false end.

(** The results reported so far, in order. *)
Fixpoint reports (evs : list event) : list TestResult :=
  match evs with
  | [] => []
  | EvReport r _ :: rest => r :: reports rest
  | _ :: rest => reports rest
  end.

(** The three statuses the process runner answers. *)
Definition runner_status (s : string) : Prop :=
  s = STATUS_AC \/ s = STATUS_RE \/ s = STATUS_TLE.

Definition known_status (s : string) : bool :=
  String.eqb s STATUS_AC || String.eqb s STATUS_WA || String.eqb s STATUS_TLE
  || String.eqb s STATUS_RE || String.eqb s STATUS_MISSING.

(** A resolver for the demo directory: the script is [/work/1.in]. *)
Definition demo_resolver : resolver :=
  {| resolve := fun p => mkPath "/work" "1" ".in";
     resolve_dir := fun d => d |}.

(** The text ends in a character that is not a line boundary. *)
Fixpoint ends_in_text (s : string) : bool :=
  match s with
  | EmptyString => false
  | String c EmptyString => negb (Py.is_linebreak c)
  | String _ rest => ends_in_text rest
  end.

(** A cap that is unset or not negative. *)
Definition cap_ok (cap : option Z) : Prop :=
  match cap with
  | None => True
  | Some m => 0 <= m
  end.

(** The name holds a decimal digit. *)
Definition has_digit (name : string) : bool :=
  existsb Py.is_digit (list_ascii_of_string name).

Definition key_eqb (a b : key) : bool :=
  match a, b with
  | KInt x, KInt y => x =? y
  | KStr s, KStr t => String.eqb s t
  | _, _ => false
  end.

(** The sort leaves [a] before [b] only when [b < a] is false. *)
Definition in_order {A : Type} (a b : key * A) : Prop := key_lt b.1 a.1 = Ok false.

(** What discovery sorts: the [*.in] files of the directory, each with its
    [.out] file when there is one, in the order of the listing. *)
Definition listed_cases (fsys : file_system) (self : OnlineJudgeTester) : list test_case :=
  if dir_exists fsys (test_case_dir self)
  then map (pair_case fsys) (glob_in fsys (test_case_dir self))
  else [].

(** A directory with [b7.in], [a07.in] and [x3.in]. *)
Definition ties_fs : file_system :=
  {| dir_exists := fun _ => true;
     glob_in := fun d => [mkPath d "b7" ".in"; mkPath d "a07" ".in"; mkPath d "x3" ".in"];
     file_exists := fun _ => false;
     read_utf8 := fun _ => Some EmptyString;
     read_latin1 := fun _ => EmptyString |}.

(** A candidate that writes its input back and exits with status 0,
    whatever the state of the world. *)
Definition echoes {World : Type} (h : host World) : Prop :=
  forall req w, exists err d w',
    popen h req w = (Completed 0 (stdin_text req) err d, w').

(** The demo host with a candidate that echoes. *)
Definition echo_host : host nat :=
  {| executable := executable demo_host;
     environ := environ demo_host;
     popen := fun req w => (Completed 0 (stdin_text req) EmptyString 1%Q, S w);
     fs := fs demo_host;
     module_file := module_file demo_host;
     abspath := abspath demo_host;
     format_list := format_list demo_host |}.

(* ====================================================================== *)
(** * Properties *)
(* ====================================================================== *)

Example splitlines_ex :
  Py.splitlines ("a" +:+ Py.chr Py.CR +:+ Py.chr Py.LF +:+ Py.chr Py.LF +:+ "b" +:+ Py.chr Py.LF)
  = ["a"; EmptyString; "b"]%string.
Proof. reflexivity. Qed.

Example strip_ex : Py.strip ("  a b " +:+ Py.chr Py.TAB) = "a b"%string.
Proof. reflexivity. Qed.

Example findall_ex : Py.findall_digits "test02_part1" = ["02"; "1"]%string.
Proof. reflexivity. Qed.

Example repr_ex : Py.repr "it's" = (Py.chr Py.DQUOTE +:+ "it's" +:+ Py.chr Py.DQUOTE)%string.
Proof. reflexivity. Qed.

(** ** The comparator *)

Section Comparator.

Implicit Types (act exp : list string) (cap : option Z).

Lemma process_lines_loop_filter lines processed :
  process_lines_loop lines processed
  = processed ++ List.filter Py.truthy (map Py.strip lines).
Proof.
  revert processed. induction lines as [|line rest IH]; intros processed; simpl.
  - by rewrite app_nil_r.
  - destruct (Py.truthy (Py.strip line)); rewrite IH; [|done].
    by rewrite <- app_assoc.
Qed.

Lemma process_lines_lenient text : process_lines text = lenient_lines text.
Proof. unfold process_lines. by rewrite process_lines_loop_filter. Qed.

Lemma list_eqb_true act exp : list_eqb act exp = true <-> act = exp.
Proof. unfold list_eqb. apply bool_decide_eq_true. Qed.

Lemma list_eqb_false act exp : list_eqb act exp = false <-> act <> exp.
Proof. unfold list_eqb. apply bool_decide_eq_false. Qed.

(** The loop over the positions of the actual lines. *)
Lemma diff_loop_actual cap exp pre suf later msgs dc :
  0 <= dc ->
  diff_loop cap (pre ++ suf) exp (seq (length pre) (length suf) ++ later) (msgs, dc)
  = let ms := mismatches_from (length pre) suf exp in
    diff_loop cap (pre ++ suf) exp later
      (msgs ++ map render (shown_after cap dc ms), dc + Z.of_nat (length ms)).
Proof.
  revert pre msgs dc. induction suf as [|a suf IH]; intros pre msgs dc Hdc.
  - simpl. destruct cap; simpl; rewrite ?take_nil, ?app_nil_r, Z.add_0_r; done.
  - cbn [length seq app diff_loop].
    rewrite list_lookup_middle by done. cbn [mismatches_from].
    fold (expected_at exp (length pre)).
    assert (Hpre : pre ++ a :: suf = (pre ++ [a]) ++ suf) by by rewrite <- app_assoc.
    assert (Hlen : S (length pre) = length (pre ++ [a]))
      by (rewrite length_app; simpl; lia).
    destruct (String.eqb a (expected_at exp (length pre))) eqn:Heq; cbn [negb].
    + rewrite Hpre, Hlen. by rewrite IH.
    + destruct cap as [m|]; cbn [shown_after].
      * destruct (dc + 1 <=? m) eqn:Hle.
        -- apply Z.leb_le in Hle. rewrite Hpre, Hlen, IH by lia.
           cbn zeta. rewrite <- Hlen. f_equal. f_equal.
           ++ rewrite <- app_assoc. f_equal. cbn [shown_after].
              replace (Z.to_nat (m - dc)) with (S (Z.to_nat (m - (dc + 1)))) by lia.
              done.
           ++ cbn [length]. lia.
        -- apply Z.leb_gt in Hle. rewrite Hpre, Hlen, IH by lia.
           cbn zeta. rewrite <- Hlen. f_equal. f_equal.
           ++ cbn [shown_after].
              replace (Z.to_nat (m - dc)) with 0%nat by lia.
              replace (Z.to_nat (m - (dc + 1))) with 0%nat by lia.
              by rewrite !take_0.
           ++ cbn [length]. lia.
      * rewrite Hpre, Hlen, IH by lia.
        cbn zeta. rewrite <- Hlen. f_equal. f_equal.
        -- by rewrite <- app_assoc.
        -- cbn [length]. lia.
Qed.

(** Past the end of the actual lines the loop stops at once. *)
Lemma diff_loop_past cap act exp n st :
  diff_loop cap act exp (seq (length act) n) st
  = if (0 <? n)%nat then (st.1 ++ [INSUFFICIENT], st.2) else st.
Proof.
  destruct n as [|n]; [done|]. destruct st as [msgs dc]. cbn [seq diff_loop].
  by rewrite (lookup_ge_None_2 act (length act)) by lia.
Qed.

Lemma wa_report_refines cap act exp :
  wa_report cap act exp = wa_report_spec cap act exp.
Proof.
  unfold wa_report, wa_report_spec, mismatches, insufficient_note.
  set (n := length act). set (k := length exp).
  replace (seq 0 (n `max` k)) with (seq 0 n ++ seq n (n `max` k - n))
    by (rewrite <- seq_app; f_equal; lia).
  pose proof (diff_loop_actual cap exp [] act (seq n (n `max` k - n)) [] 0) as H.
  cbn [length app] in H. fold n in H. rewrite H by lia. clear H.
  cbn zeta. subst n. rewrite diff_loop_past. cbn [fst snd app].
  rewrite Z.add_0_l.
  assert (Hcmp : (0 <? length act `max` k - length act)%nat = (length act <? k)%nat).
  { destruct (Nat.ltb_spec 0 (length act `max` k - length act));
      destruct (Nat.ltb_spec (length act) k); lia || done. }
  rewrite Hcmp.
  destruct (length act <? k)%nat; destruct cap as [m|]; cbn [shown_after];
    rewrite ?Z.sub_0_r, ?app_nil_r;
    try destruct (m <? _); rewrite <- ?app_assoc, ?app_nil_r; done.
Qed.

Lemma elem_of_mismatches_from exp suf k i a e :
  (i, a, e) ∈ mismatches_from k suf exp
  <-> (k <= i)%nat /\ suf !! (i - k)%nat = Some a /\ e = expected_at exp i /\ a <> e.
Proof.
  revert k. induction suf as [|b suf IH]; intros k; cbn [mismatches_from].
  - split; [by intros ?%elem_of_nil | by intros (_ & ? & _)].
  - assert (Hrest : forall P : Prop,
      ((S k <= i)%nat /\ suf !! (i - S k)%nat = Some a /\ P)
      <-> ((k < i)%nat /\ (b :: suf) !! (i - k)%nat = Some a /\ P)).
    { intros P. split; intros (Hk & Hl & HP); (split; [lia|split; [|done]]).
      - replace (i - k)%nat with (S (i - S k)) by lia. done.
      - replace (i - k)%nat with (S (i - S k)) in Hl by lia. done. }
    destruct (String.eqb_spec b (expected_at exp k)) as [Hbe|Hbe].
    + rewrite IH, Hrest. split.
      * intros (Hk & Hl & HP). split; [lia|done].
      * intros (Hk & Hl & -> & Hne).
        destruct (decide (i = k)) as [->|]; [|split; [lia|done]].
        rewrite Nat.sub_diag in Hl. by simplify_eq/=.
    + rewrite elem_of_cons, IH, Hrest. split.
      * intros [Heq|(Hk & Hl & HP)].
        -- simplify_eq. rewrite Nat.sub_diag. done.
        -- split; [lia|done].
      * intros (Hk & Hl & -> & Hne).
        destruct (decide (i = k)) as [->|]; [|right; split; [lia|done]].
        rewrite Nat.sub_diag in Hl. simplify_eq/=. by left.
Qed.

Lemma elem_of_mismatches act exp i a e :
  (i, a, e) ∈ mismatches act exp
  <-> act !! i = Some a /\ e = expected_at exp i /\ a <> e.
Proof.
  unfold mismatches. rewrite elem_of_mismatches_from, Nat.sub_0_r.
  split; [by intros (_ & ?) | intros ?; split; [lia|done]].
Qed.

End Comparator.



(** The two diff reports the specification lists as test cases. *)
Example report_insufficient_lines :
  compare_text (Some 10) ("x" +:+ NL +:+ "q") ("x" +:+ NL +:+ "y" +:+ NL +:+ "z") false
  = (STATUS_WA,
     "line 2: got:    'q'" +:+ NL +:+ "        expect: 'y'" +:+ NL
     +:+ "Error: Insufficient output lines.")%string.
Proof. vm_compute. reflexivity. Qed.

Example report_cap_zero :
  compare_text (Some 0)
    ("1" +:+ NL +:+ "2" +:+ NL +:+ "3" +:+ NL +:+ "4" +:+ NL +:+ "5")
    ("a" +:+ NL +:+ "b" +:+ NL +:+ "c" +:+ NL +:+ "d" +:+ NL +:+ "e") true
  = (STATUS_WA, "... and 5 more differences."%string).
Proof. vm_compute. reflexivity. Qed.




(** ** The process runner and the repeat controller *)

Section Runner.

Context {World : Type}.
Variable h : host World.
Variable self : OnlineJudgeTester.

Implicit Types (st : state World) (r : string * string * millis * string).

Lemma run_single_process_state input st :
  (_run_single_process h self input st).2
  = mkState (popen h (request_for h self input) (world st)).2
            (log st ++ [EvSpawn (request_for h self input)]).
Proof.
  unfold _run_single_process.
  destruct (popen h _ (world st)) as [ev w]. cbn [snd].
  destruct ev as [rc out err d| |]; [destruct (rc =? 0)|..]; done.
Qed.

Lemma run_single_process_AC input st :
  run_status (_run_single_process h self input st).1 = STATUS_AC ->
  run_error (_run_single_process h self input st).1 = EmptyString.
Proof.
  unfold _run_single_process.
  destruct (popen h _ (world st)) as [ev w].
  destruct ev as [rc out err d| |]; [destruct (rc =? 0)|..]; cbn; done.
Qed.

Lemma last_cons_some {A} (x y : A) (l : list A) :
  last l = Some y -> last (x :: l) = Some y.
Proof. destruct l; [done|]. done. Qed.

Lemma repeat_loop_answer n input start st :
  let all := (attempts h self n input st).1 in
  let k := stop_after all in
  repeat_loop h self n input start st
  = (repeat_answer start (take k all), (attempts h self k input st).2).
Proof.
  revert start st. induction n as [|n IH]; intros start st; [done|].
  cbn [attempts repeat_loop].
  destruct start as [[[s0 times] o0] e0].
  destruct (_run_single_process h self input st) as [r st'] eqn:Hrun.
  destruct r as [[[status output] duration] error_msg].
  specialize (IH (status, times ++ [duration], output, error_msg) st').
  destruct (attempts h self n input st') as [rs st''] eqn:Hrest.
  cbn [fst snd] in *. cbn [stop_after run_status fst].
  destruct (String.eqb status STATUS_AC) eqn:Hs; cbn [negb].
  - rewrite IH. cbn [attempts]. rewrite Hrun.
    destruct (attempts h self (stop_after rs) input st') as [rs' st3] eqn:Hk.
    cbn [snd take]. f_equal.
    unfold repeat_answer.
    destruct (last (take (stop_after rs) rs)) as [r'|] eqn:Hlast.
    + rewrite (last_cons_some _ r') by done. cbn. by rewrite <- app_assoc.
    + apply last_None in Hlast. rewrite Hlast. done.
  - cbn [attempts]. rewrite Hrun. cbn. done.
Qed.

Lemma attempts_length n input st :
  length (attempts h self n input st).1 = n.
Proof.
  revert st. induction n as [|n IH]; intros st; [done|]. cbn [attempts].
  destruct (_run_single_process h self input st) as [r st'].
  specialize (IH st'). destruct (attempts h self n input st') as [rs st''].
  cbn in *. by rewrite IH.
Qed.

Lemma attempts_take n k input st :
  (k <= n)%nat ->
  (attempts h self k input st).1 = take k (attempts h self n input st).1.
Proof.
  revert k st. induction n as [|n IH]; intros k st Hk.
  - by replace k with 0%nat by lia.
  - destruct k as [|k]; [done|]. cbn [attempts].
    destruct (_run_single_process h self input st) as [r st'].
    specialize (IH k st' ltac:(lia)).
    destruct (attempts h self n input st') as [rs st''].
    destruct (attempts h self k input st') as [rs' st3].
    cbn in *. by rewrite IH.
Qed.

Lemma stop_after_bounds rs :
  (stop_after rs <= length rs)%nat /\ (rs <> [] -> 1 <= stop_after rs)%nat.
Proof.
  induction rs as [|r rs [IH _]]; [done|]. cbn [stop_after length].
  destruct (String.eqb _ _); split; intros; lia.
Qed.

(** Every attempt before the last one made is AC, and the last one made is
    not AC when attempts remain. *)
Lemma stop_after_prefix rs :
  Forall (fun r => run_status r = STATUS_AC) (take (stop_after rs - 1) rs)
  /\ ((stop_after rs < length rs)%nat ->
      exists r, last (take (stop_after rs) rs) = Some r /\ run_status r <> STATUS_AC).
Proof.
  induction rs as [|r rs [IH1 IH2]]; [split; [done|cbn; lia]|].
  cbn [stop_after].
  destruct (String.eqb_spec (run_status r) STATUS_AC) as [Hs|Hs].
  - split.
    + cbn [Nat.sub]. rewrite Nat.sub_0_r.
      destruct (stop_after rs) as [|k] eqn:Hk; [done|].
      cbn [take]. constructor; [done|].
      by replace k with (S k - 1)%nat by lia.
    + cbn [length take]. intros Hlt. destruct IH2 as (r' & Hl & Hne); [lia|].
      exists r'. split; [|done]. by apply last_cons_some.
  - split; [done|]. intros _. exists r. done.
Qed.

Lemma stop_after_all_AC rs :
  Forall (fun r => run_status r = STATUS_AC) rs -> stop_after rs = length rs.
Proof.
  induction 1 as [|r rs Hr _ IH]; [done|]. cbn [stop_after length].
  rewrite Hr. cbn. by rewrite IH.
Qed.

End Runner.

(** C1. One run of the candidate is classified by what the process did:
    exit status 0 gives AC with an empty diagnostic and the captured
    standard output; a nonzero exit status gives RE with the captured
    standard error as diagnostic and the captured standard output; a
    timeout gives TLE with an empty diagnostic and the output salvaged
    around the kill, whatever exit status the killed process left; a
    failure to spawn gives RE with the description of the failure, no
    output and an elapsed time of 0. *)
Theorem run_single_process_classifies {World : Type}
    (h : host World) (self : OnlineJudgeTester) (input_str : string) (st : state World) :
  (_run_single_process h self input_str st).1
  = match (popen h (request_for h self input_str) (world st)).1 with
    | Completed returncode stdout stderr duration =>
        if returncode =? 0 then (STATUS_AC, stdout, duration, EmptyString)
        else (STATUS_RE, stdout, duration, stderr)
    | TimedOut duration e_stdout _ d =>
        (STATUS_TLE,
         match d, e_stdout with
         | Drained stdout _ _, _ => stdout
         | DrainFailed, PyNone => EmptyString
         | DrainFailed, PyStr s => s
         | DrainFailed, PyBytes b => decode_utf8 b
         end,
         duration, EmptyString)
    | Failed description => (STATUS_RE, EmptyString, 0%Q, description)
    end.
Proof.
  unfold _run_single_process.
  destruct (popen h _ (world st)) as [ev w]. cbn [fst].
  destruct ev as [rc out err d|d e_out e_err dr|desc]; cbn [fst].
  - by destruct (rc =? 0).
  - f_equal. f_equal. f_equal.
    destruct dr as [out err rc|]; [by destruct out|].
    destruct e_out as [|s|b]; [done|by destruct s|by destruct b].
  - done.
Qed.

(** C5. For a repeat count of at least 1 the controller runs the process
    runner one attempt after the other and stops with the first attempt
    that is not AC, or after [repeat] attempts when all are AC.  It spawns
    exactly the attempts it makes, returns the elapsed time of each of them
    in order, and the status, output and diagnostic of the last one made. *)
Theorem repeat_controller_stops_at_first_failure {World : Type}
    (h : host World) (self : OnlineJudgeTester)
    (input_path : path) (repeat : Z) (st : state World) :
  1 <= repeat ->
  let n := Z.to_nat repeat in
  let input_content := read_text h input_path in
  let all := (attempts h self n input_content st).1 in
  let k := stop_after all in
  let made := take k all in
  exists r,
    last made = Some r
    /\ _execute_case_with_repeat h self input_path repeat st
       = ((run_status r, map run_duration made, run_output r, run_error r),
          (attempts h self k input_content st).2)
    /\ made = (attempts h self k input_content st).1
    /\ (1 <= k <= n)%nat
    /\ Forall (fun a => run_status a = STATUS_AC) (take (k - 1) all)
    /\ ((k < n)%nat -> run_status r <> STATUS_AC)
    /\ (Forall (fun a => run_status a = STATUS_AC) all ->
        k = n /\ made = all /\ run_status r = STATUS_AC).
Proof.
  intros Hrepeat n input_content all k made.
  assert (Hlen : length all = n) by apply attempts_length.
  destruct (stop_after_bounds all) as [Hle Hge].
  assert (Hk : (1 <= k <= n)%nat).
  { split; [apply Hge; intros Hnil; rewrite Hnil in Hlen; cbn in Hlen; lia|].
    unfold k. lia. }
  destruct (last made) as [r|] eqn:Hlast.
  2:{ apply last_None in Hlast. apply (f_equal length) in Hlast.
      unfold made in Hlast. rewrite length_take in Hlast. cbn in Hlast. lia. }
  exists r. split; [done|]. split.
  { unfold _execute_case_with_repeat. fold input_content n.
    rewrite repeat_loop_answer. fold all k made.
    unfold repeat_answer. rewrite Hlast. done. }
  split; [symmetry; apply attempts_take; lia|]. split; [done|].
  destruct (stop_after_prefix all) as [Hpre Hstop]. fold k in Hpre, Hstop.
  split; [done|]. split.
  { intros Hlt. destruct Hstop as (r' & Hl & Hne); [lia|].
    fold made in Hl. by simplify_eq. }
  intros Hall. pose proof (stop_after_all_AC all Hall) as Hkn. fold k in Hkn.
  assert (Hmade : made = all) by (unfold made; rewrite Hkn; apply firstn_all).
  split; [lia|]. split; [done|].
  rewrite Hmade in Hlast. apply last_Some_elem_of in Hlast.
  rewrite Forall_forall in Hall. by apply Hall.
Qed.

Lemma repeat_controller_stops_at_first_failure_witness :
  1 <= 2
  /\ _execute_case_with_repeat demo_host demo_tester
       (mkPath "/work/test_case" "1" ".in") 2 demo_state
     = ((STATUS_AC, [1%Q; 1%Q], "hello, Ada"%string, EmptyString),
        mkState 2%nat
          [EvSpawn (request_for demo_host demo_tester "Ada");
           EvSpawn (request_for demo_host demo_tester "Ada")]).
Proof.
  assert (H : 1 <= 2) by lia. split; [exact H|].
  destruct (repeat_controller_stops_at_first_failure demo_host demo_tester
              (mkPath "/work/test_case" "1" ".in") 2 demo_state H)
    as (r & Hlast & Hexec & _).
  rewrite Hexec. vm_compute in Hlast. injection Hlast as <-. reflexivity.
Defined.

(** ** The case store *)

Section CaseStore.

Implicit Types (all_cases : list test_case) (tokens : list token).

Lemma matched_by_existsb (case_name : string) tokens :
  matched_by case_name tokens = existsb (token_matches case_name) tokens.
Proof.
  induction tokens as [|t ts IH]; [done|]. cbn [matched_by existsb].
  by destruct (token_matches case_name t).
Qed.

Lemma filter_loop_filter tokens all_cases filtered_cases :
  filter_loop tokens all_cases filtered_cases
  = filtered_cases
    ++ List.filter (fun c => existsb (token_matches (stem c.1)) tokens) all_cases.
Proof.
  revert filtered_cases.
  induction all_cases as [|[input_path output_path] rest IH]; intros acc.
  - cbn. by rewrite app_nil_r.
  - cbn [filter_loop List.filter fst]. rewrite matched_by_existsb.
    destruct (existsb _ tokens); rewrite IH; [|done].
    by rewrite <- app_assoc.
Qed.


Lemma append_cons (c : ascii) (s t : string) :
  String c s +:+ t = String c (s +:+ t).
Proof. reflexivity. Qed.




End CaseStore.


(** ** The order of discovery *)

Section SortKey.

Context {A : Type}.
Implicit Types (x : key * A) (l r : list (key * A)).

Lemma key_lt_ok (a b : key) :
  (exists v, key_lt a b = Ok v) <-> is_int_key a = is_int_key b.
Proof.
  destruct a, b; cbn; split; first [done | intros _; by eauto | by intros [? ?]].
Qed.

Lemma insert_by_key_ok x l r :
  insert_by_key x l = Ok r ->
  r ≡ₚ x :: l /\ (forall y, y ∈ l -> exists z, z ∈ l /\ is_int_key z.1 = is_int_key x.1).
Proof.
  revert r. induction l as [|y l IH]; intros r; cbn [insert_by_key].
  - intros [= <-]. split; [done|]. by intros y ?%elem_of_nil.
  - destruct (key_lt y.1 x.1) as [[|]|e] eqn:Hlt; [| |done].
    + destruct (insert_by_key x l) as [r'|e]; [|done]. intros [= <-].
      destruct (IH r' eq_refl) as [Hperm _]. split.
      * rewrite Hperm. apply perm_swap.
      * intros _ _. exists y. split; [by left|]. apply key_lt_ok. eauto.
    + intros [= <-]. split; [done|].
      intros _ _. exists y. split; [by left|]. apply key_lt_ok. eauto.
Qed.

(** A sort that succeeds permutes its input, and all keys are of one kind. *)
Lemma sort_keyed_ok l r :
  sort_keyed l = Ok r ->
  r ≡ₚ l /\ forall x y, x ∈ l -> y ∈ l -> is_int_key x.1 = is_int_key y.1.
Proof.
  revert r. induction l as [|x l IH]; intros r; cbn [sort_keyed].
  - intros [= <-]. split; [done|]. by intros x y ?%elem_of_nil.
  - destruct (sort_keyed l) as [r'|e]; [|done]. intros Hins.
    destruct (IH r' eq_refl) as [Hperm Hkind].
    destruct (insert_by_key_ok _ _ _ Hins) as [Hperm' Hx].
    split; [by rewrite Hperm', Hperm|].
    assert (Hxl : forall y, y ∈ l -> is_int_key y.1 = is_int_key x.1).
    { intros y Hy. destruct (Hx y) as (z & Hz & Hzx); [by rewrite Hperm|].
      rewrite <- Hzx. apply Hkind; [done|]. by rewrite <- Hperm. }
    intros a b [->|Ha]%elem_of_cons [->|Hb]%elem_of_cons;
      [done|symmetry; by apply Hxl|by apply Hxl|by apply Hkind].
Qed.

(** The only exception of the sort is the TypeError of a comparison. *)
Lemma sort_keyed_err l e :
  sort_keyed l = Err e -> exists msg, e = TypeError msg.
Proof.
  revert e. induction l as [|x l IH]; intros e'; cbn [sort_keyed]; [done|].
  destruct (sort_keyed l) as [r|e] eqn:Hs; [|intros [= <-]; by eapply IH].
  clear. revert e'. induction r as [|y r IHr]; intros e'; cbn [insert_by_key]; [done|].
  destruct y as [ky ay], x as [kx ax]; cbn [fst].
  destruct ky, kx; cbn [key_lt]; try (intros [= <-]; eauto).
  - destruct (_ <? _); [|done].
    destruct (insert_by_key _ r) eqn:Hi; [done|]. intros [= <-]. by eapply IHr.
  - destruct (String.ltb _ _); [|done].
    destruct (insert_by_key _ r) eqn:Hi; [done|]. intros [= <-]. by eapply IHr.
Qed.

(** Keys of both kinds make the sort raise. *)
Lemma sort_keyed_mixed_raises l x y :
  x ∈ l -> y ∈ l -> is_int_key x.1 = true -> is_int_key y.1 = false ->
  exists msg, sort_keyed l = Err (TypeError msg).
Proof.
  intros Hx Hy Hxi Hyi.
  destruct (sort_keyed l) as [r|e] eqn:Hsort.
  - destruct (sort_keyed_ok _ _ Hsort) as [_ Hkind].
    specialize (Hkind x y Hx Hy). congruence.
  - destruct (sort_keyed_err _ _ Hsort) as [msg ->]. eauto.
Qed.

(** Integer keys always sort, into ascending order. *)
Lemma insert_by_key_ints x l :
  is_int_key x.1 = true ->
  Forall (fun y => is_int_key y.1 = true) l ->
  Sorted (fun a b => key_value a.1 <= key_value b.1) l ->
  exists r, insert_by_key x l = Ok r
    /\ Forall (fun y => is_int_key y.1 = true) r
    /\ Sorted (fun a b => key_value a.1 <= key_value b.1) r
    /\ (forall a, HdRel (fun a b => key_value a.1 <= key_value b.1) a l ->
        key_value a.1 <= key_value x.1 ->
        HdRel (fun a b => key_value a.1 <= key_value b.1) a r).
Proof.
  intros Hx Hall Hsorted.
  induction l as [|y l IH]; cbn [insert_by_key].
  - exists [x]. split; [done|]. split; [by constructor|].
    split; [by repeat constructor|]. intros a _ Ha. by constructor.
  - apply Forall_cons in Hall as [Hy Hall].
    apply Sorted_inv in Hsorted as [Hsorted Hhd].
    destruct x as [[n|s] ax], y as [[m|s'] ay]; try done. cbn [fst key_lt] in *.
    destruct (Z.ltb_spec m n) as [Hlt|Hge].
    + destruct (IH Hall Hsorted) as (r & -> & Hr & Hs & Hrel).
      exists ((KInt m, ay) :: r). split; [done|]. split; [by constructor|]. split.
      * constructor; [done|]. apply Hrel; [done|]. cbn. lia.
      * intros a Ha _. apply HdRel_inv in Ha. by constructor.
    + exists ((KInt n, ax) :: (KInt m, ay) :: l). split; [done|].
      split; [by repeat constructor|]. split.
      * constructor; [by constructor|]. constructor. cbn. lia.
      * intros a _ Ha. by constructor.
Qed.

Lemma sort_keyed_ints l :
  Forall (fun y => is_int_key y.1 = true) l ->
  exists r, sort_keyed l = Ok r /\ r ≡ₚ l
    /\ Sorted (fun a b => key_value a.1 <= key_value b.1) r.
Proof.
  induction l as [|x l IH]; intros Hall; cbn [sort_keyed].
  - exists []. split; [done|]. split; constructor.
  - apply Forall_cons in Hall as [Hx Hall].
    destruct (IH Hall) as (r' & -> & Hperm & Hsorted).
    destruct (insert_by_key_ints x r' Hx) as (r & Hins & _ & Hs & _);
      [by rewrite Hperm|done|].
    exists r. split; [done|]. split; [|done].
    destruct (insert_by_key_ok _ _ _ Hins) as [Hp _]. by rewrite Hp, Hperm.
Qed.

End SortKey.

Lemma findall_digits_from_run (run name : string) :
  Py.truthy run = true ->
  exists rest, Py.findall_digits_from run name = rest /\ rest <> [].
Proof.
  revert run. induction name as [|c name IH]; intros run Hrun; cbn.
  - rewrite Hrun. eauto.
  - destruct (Py.is_digit c).
    + apply IH. by destruct run.
    + rewrite Hrun. eauto.
Qed.

(** A stem without a digit has itself as key; a stem with a digit has an
    integer key. *)
Lemma sort_key_kind (item : test_case) :
  is_int_key (sort_key item)
  = existsb Py.is_digit (list_ascii_of_string (stem item.1)).
Proof.
  unfold sort_key, Py.findall_digits.
  induction (stem item.1) as [|c name IH] at 1 3; [done|].
  cbn [list_ascii_of_string existsb Py.findall_digits_from].
  destruct (Py.is_digit c) eqn:Hc; cbn [orb Py.truthy].
  - destruct (findall_digits_from_run (EmptyString +:+ Py.chr c) name eq_refl)
      as (rest & -> & Hne).
    by destruct rest.
  - done.
Qed.

(** C3. Discovery fails on a directory that mixes a stem with a digit and
    a stem without one: the keys are an integer and a string, Python has no
    order between the two, and the sort raises a TypeError in place of
    returning the ordered cases. *)
Theorem collect_raises_on_mixed_names :
  sort_key (pair_case mixed_fs (mkPath "/work/test_case" "1" ".in")) = KInt 1
  /\ sort_key (pair_case mixed_fs (mkPath "/work/test_case" "abc" ".in")) = KStr "abc"
  /\ _collect_test_cases mixed_fs demo_tester
     = Err (TypeError "'<' not supported between instances of 'str' and 'int'").
Proof. split; [|split]; reflexivity. Qed.

Example sort_key_first_run :
  sort_key (mkPath "/work/test_case" "test02_part1" ".in", None) = KInt 2.
Proof. reflexivity. Qed.

(** ** The orchestrator and the recursion guard *)

Section Orchestrator.

Context {World : Type}.
Variable h : host World.
Variable self : OnlineJudgeTester.

Implicit Types (st : state World).

Lemma attempts_AC_no_error n input st :
  Forall (fun r => run_status r = STATUS_AC -> run_error r = EmptyString)
         (attempts h self n input st).1.
Proof.
  revert st. induction n as [|n IH]; intros st; [constructor|]. cbn [attempts].
  pose proof (run_single_process_AC h self input st) as Hrun.
  destruct (_run_single_process h self input st) as [r st'].
  specialize (IH st'). destruct (attempts h self n input st') as [rs st''].
  cbn [fst] in *. by constructor.
Qed.

Lemma execute_AC_no_error input_path repeat st :
  (_execute_case_with_repeat h self input_path repeat st).1.1.1.1 = STATUS_AC ->
  (_execute_case_with_repeat h self input_path repeat st).1.2 = EmptyString.
Proof.
  unfold _execute_case_with_repeat. rewrite repeat_loop_answer. cbn [fst].
  set (all := (attempts h self (Z.to_nat repeat) (read_text h input_path) st).1).
  unfold repeat_answer.
  destruct (last (take (stop_after all) all)) as [r|] eqn:Hlast; [|done].
  cbn [fst snd]. intros Hs.
  apply last_Some_elem_of in Hlast.
  apply (elem_of_take _ _ _) in Hlast as (i & Hi & _).
  pose proof (attempts_AC_no_error (Z.to_nat repeat) (read_text h input_path) st) as Hall.
  fold all in Hall. rewrite Forall_forall in Hall.
  apply Hall; [|done]. by eapply list_elem_of_lookup_2.
Qed.

Lemma compare_text_AC cap actual expected strict :
  (compare_text cap actual expected strict).1 = STATUS_AC ->
  (compare_text cap actual expected strict).2 = EmptyString.
Proof.
  unfold compare_text.
  destruct (strict && String.eqb actual expected); [done|].
  by destruct (list_eqb _ _).
Qed.


Lemma collect_err fsys e :
  _collect_test_cases fsys self = Err e -> exists msg, e = TypeError msg.
Proof.
  unfold _collect_test_cases, sort_by.
  destruct (negb _); [done|].
  destruct (sort_keyed _) as [r|e'] eqn:Hs; [done|].
  intros [= <-]. by eapply sort_keyed_err.
Qed.

Lemma handle_child_unmarked sol_func st :
  environ h !! MARKER <> Some "1"%string ->
  _handle_child_process h sol_func st = (Return tt, st).
Proof.
  intros Hne. unfold _handle_child_process.
  by rewrite bool_decide_eq_false_2.
Qed.

Lemma run_tests_unmarked sol_func strict repeat cases_to_run show_raw st :
  environ h !! MARKER <> Some "1"%string ->
  run_tests h self sol_func strict repeat cases_to_run show_raw st
  = orchestrate h self strict repeat cases_to_run show_raw st.
Proof.
  intros Hne. unfold run_tests, bind. by rewrite handle_child_unmarked.
Qed.

Lemma run_tests_guard sol_func strict repeat cases_to_run show_raw st :
  run_tests h self sol_func strict repeat cases_to_run show_raw st
  = (if bool_decide (environ h !! MARKER = Some "1"%string) then
       match sol_func (world st) with
       | (SolReturned, w) =>
           (SysExit 0, mkState w (log st ++ [EvCall; EvFlush]))
       | (SolRaised tb exception_only, w) =>
           (SysExit 1,
            mkState w (log st ++ [EvCall; EvStderr (diagnostic h tb exception_only)]))
       end
     else orchestrate h self strict repeat cases_to_run show_raw st).
Proof.
  unfold run_tests, bind, _handle_child_process.
  destruct (bool_decide (environ h !! MARKER = Some "1"%string)); cbn [negb]; [|done].
  unfold bind, lift, tell, sys_exit, emit.
  destruct (sol_func (world st)) as [[|tb exception_only] w]; cbn;
    by rewrite <- app_assoc.
Qed.

Lemma run_cases_length strict repeat show_raw cases results st :
  length (run_cases h self strict repeat show_raw cases results st).1
  = (length results + length cases)%nat.
Proof.
  revert results st. induction cases as [|c cases IH]; intros results st; cbn.
  - lia.
  - destruct (run_case h self strict repeat show_raw c st) as [result st'].
    rewrite IH, length_app. cbn. lia.
Qed.

End Orchestrator.

(** C7. For a case whose run is AC: with comparison enabled the result
    carries the comparator's verdict when an expected-output file exists,
    and the status MISSING with a diagnostic that names [<stem>.out] when
    none exists; with comparison disabled the AC of the run stands.  The
    times and the output are those of the run in every case. *)
Theorem ac_run_takes_comparator_verdict {World : Type}
    (h : host World) (self : OnlineJudgeTester)
    (strict_comparison : bool) (repeat : Z) (show_raw_output : bool)
    (input_path : path) (expected_path : option path) (st : state World) :
  let run := (_execute_case_with_repeat h self input_path repeat st).1 in
  let result :=
    (run_case h self strict_comparison repeat show_raw_output
       (input_path, expected_path) st).1 in
  run.1.1.1 = STATUS_AC ->
  (status result, error_message result)
  = (if compare_output self then
       match expected_path with
       | Some p => _compare_output h self run.1.2 p strict_comparison
       | None => (STATUS_MISSING, missing_message (stem input_path))
       end
     else (STATUS_AC, EmptyString))
  /\ case_name result = stem input_path
  /\ execution_times result = run.1.1.2
  /\ output result = run.1.2
  /\ missing_message (stem input_path)
     = "找不到對應的 " +:+ (stem input_path +:+ ".out") +:+ " 檔案".
Proof.
  intros run result Hac.
  pose proof (execute_AC_no_error h self input_path repeat st Hac) as Herr.
  subst run result. unfold run_case.
  destruct (_execute_case_with_repeat h self input_path repeat st)
    as [[[[status exec_times] out] error_msg] st1].
  cbn [fst snd] in *. subst status error_msg.
  unfold judge. cbn [String.eqb andb].
  assert (Hmsg : missing_message (stem input_path)
                 = "找不到對應的 " +:+ (stem input_path +:+ ".out") +:+ " 檔案").
  { unfold missing_message.
    generalize (stem input_path). intros s.
    f_equal. induction s as [|c s IH]; [done|]. by rewrite !append_cons, IH. }
  change (String.eqb STATUS_AC STATUS_AC) with true. cbn [andb].
  destruct (compare_output self); [|done].
  destruct expected_path as [p|]; [|done].
  unfold _compare_output.
  pose proof (compare_text_AC (max_diffs self) out (read_text h p) strict_comparison)
    as Hcmp.
  destruct (compare_text (max_diffs self) out (read_text h p) strict_comparison)
    as [cmp_status cmp_msg].
  cbn [fst snd] in *.
  destruct (String.eqb_spec cmp_status STATUS_AC) as [->|Hne]; cbn [negb fst snd].
  - by rewrite Hcmp.
  - done.
Qed.

Lemma ac_run_takes_comparator_verdict_witness :
  let input_path := mkPath "/work/test_case" "1" ".in" in
  let expected_path := Some (mkPath "/work/test_case" "1" ".out") in
  (_execute_case_with_repeat demo_host demo_tester input_path 1 demo_state).1.1.1.1
  = STATUS_AC
  /\ status (run_case demo_host demo_tester false 1 false
               (input_path, expected_path) demo_state).1 = STATUS_AC
  /\ status (run_case demo_host demo_tester false 1 false
               (input_path, None) demo_state).1 = STATUS_MISSING.
Proof.
  intros input_path expected_path.
  assert (Hac : (_execute_case_with_repeat demo_host demo_tester input_path 1
                   demo_state).1.1.1.1 = STATUS_AC) by reflexivity.
  split; [exact Hac|]. split.
  - exact (f_equal fst
      (proj1 (ac_run_takes_comparator_verdict demo_host demo_tester false 1 false
                input_path expected_path demo_state Hac))).
  - exact (f_equal fst
      (proj1 (ac_run_takes_comparator_verdict demo_host demo_tester false 1 false
                input_path None demo_state Hac))).
Defined.

(** C8. With the recursion marker unset, [run_tests] raises the no-cases
    error exactly when discovery returns no case and no filter was asked
    for (the token list is absent or empty).  When a filter was asked for
    and selects nothing, it prints a warning and returns the empty list. *)
Theorem no_cases_error_only_without_filter {World : Type}
    (h : host World) (self : OnlineJudgeTester)
    (sol_func : World -> sol_outcome * World)
    (strict_comparison : bool) (repeat : Z)
    (cases_to_run : option (list token)) (show_raw_output : bool)
    (st : state World) :
  environ h !! MARKER <> Some "1"%string ->
  let run :=
    run_tests h self sol_func strict_comparison repeat cases_to_run show_raw_output st in
  let discovered := _collect_test_cases (fs h) self in
  ((exists msg, run.1 = Raise (FileNotFoundError msg))
   <-> discovered = Ok [] /\ requested cases_to_run = false)
  /\ (requested cases_to_run = false <-> cases_to_run = None \/ cases_to_run = Some [])
  /\ (discovered = Ok [] -> requested cases_to_run = false ->
      run = (Raise (FileNotFoundError ("No .in files found in " +:+ test_case_dir self)),
             st))
  /\ (forall all_cases,
        discovered = Ok all_cases -> requested cases_to_run = true ->
        _filter_test_cases all_cases cases_to_run = [] ->
        run = (Return [],
               emit (EvPrint ("[WARNING] No cases matched filter: "
                              +:+ repr_tokens cases_to_run)) st)).
Proof.
  intros Hmarker run discovered. subst run.
  rewrite run_tests_unmarked by done.
  unfold orchestrate, bind. fold discovered.
  split; [|split; [|split]].
  - destruct discovered as [all_cases|e] eqn:Hd; cbn [of_result ret raise].
    + destruct (bool_decide (all_cases = [])) eqn:Hnil; cbn [andb].
      * apply bool_decide_eq_true in Hnil as ->.
        destruct (requested cases_to_run) eqn:Hreq; cbn [negb andb].
        -- split; [|by intros [_ ?]].
           intros [msg Hmsg]. exfalso. revert Hmsg.
           unfold _filter_test_cases. rewrite Hreq. cbn. done.
        -- split; [done|]. intros _. unfold raise. cbn. eauto.
      * apply bool_decide_eq_false in Hnil.
        split; [|intros [[= ?] _]; done].
        intros [msg Hmsg]. exfalso.
        destruct (requested cases_to_run && _); unfold tell, ret, lift in Hmsg;
          cbn in Hmsg; [done|].
        destruct (run_cases _ _ _ _ _ _ _ _) in Hmsg. done.
    + split; [|by intros [? _]]. intros [msg Hmsg]. cbn in Hmsg.
      destruct (collect_err self _ _ Hd) as [msg' ->]. done.
  - destruct cases_to_run as [[|t ts]|]; cbn; split; try done; try tauto;
      intros [?|?]; done.
  - intros -> ->. done.
  - intros all_cases -> Hreq Hnone. cbn [of_result ret].
    rewrite Hreq, Hnone. cbn [negb andb]. rewrite andb_false_r.
    rewrite bool_decide_eq_true_2 by done. done.
Qed.

Lemma no_cases_error_only_without_filter_witness :
  environ bare_host !! MARKER <> Some "1"%string
  /\ run_tests bare_host demo_tester demo_sol false 1 None false demo_state
     = (Raise (FileNotFoundError "No .in files found in /work/test_case"), demo_state)
  /\ run_tests demo_host demo_tester demo_sol false 1 (Some [IntToken 7]) false demo_state
     = (Return [],
        mkState 0%nat [EvPrint "[WARNING] No cases matched filter: [7]"]).
Proof.
  assert (Hbare : environ bare_host !! MARKER <> Some "1"%string) by done.
  assert (Hdemo : environ demo_host !! MARKER <> Some "1"%string) by done.
  split; [exact Hbare|]. split.
  - exact (proj1 (proj2 (proj2
      (no_cases_error_only_without_filter bare_host demo_tester demo_sol false 1
         None false demo_state Hbare))) eq_refl eq_refl).
  - exact (proj2 (proj2 (proj2
      (no_cases_error_only_without_filter demo_host demo_tester demo_sol false 1
         (Some [IntToken 7]) false demo_state Hdemo)))
      _ eq_refl eq_refl eq_refl).
Defined.


Example guard_in_child_process :
  let child := {| executable := executable demo_host;
                  environ := child_env demo_host;
                  popen := popen demo_host;
                  fs := fs demo_host;
                  module_file := module_file demo_host;
                  abspath := abspath demo_host;
                  format_list := format_list demo_host |} in
  run_tests child demo_tester demo_sol false 1 None false demo_state
  = (SysExit 0, mkState 0%nat [EvCall; EvFlush]).
Proof.
  intros child.
  rewrite run_tests_guard.
  rewrite bool_decide_eq_true_2; [done|]. apply lookup_insert_eq.
Qed.

(** The whole run on the demo directory: [1] is accepted, [2] has no
    expected output. *)
Example run_tests_demo :
  (run_tests demo_host demo_tester demo_sol false 1 None false demo_state).1
  = Return
      [mkTestResult "1" STATUS_AC [1%Q] "hello, Ada" EmptyString;
       mkTestResult "2" STATUS_MISSING [1%Q] "hello, Ada" (missing_message "2")].
Proof.
  rewrite run_tests_unmarked by done. reflexivity.
Qed.

(* ====================================================================== *)
(** * Further properties of the code *)
(* ====================================================================== *)

(** ** Line splitting *)

Lemma append_assoc (a b c : string) : (a +:+ b) +:+ c = a +:+ (b +:+ c).
Proof. induction a as [|x a IH]; [done|]. by rewrite !append_cons, IH. Qed.

Lemma append_nil_r (a : string) : a +:+ EmptyString = a.
Proof. induction a as [|x a IH]; [done|]. by rewrite append_cons, IH. Qed.

Lemma splitlines_from_newline_len (n : nat) (cur : option string) (s : string) :
  (String.length s <= n)%nat ->
  exists extra,
    (extra = [] \/ extra = [EmptyString])
    /\ Py.splitlines_from cur (s +:+ NL) = Py.splitlines_from cur s ++ extra.
Proof.
  revert cur s. induction n as [|n IH]; intros cur s Hlen.
  - destruct s; [|cbn in Hlen; lia].
    destruct cur as [l|]; [exists []|exists [EmptyString]]; split; auto.
  - destruct s as [|c rest].
    { destruct cur as [l|]; [exists []|exists [EmptyString]]; split; auto. }
    cbn [String.length] in Hlen. rewrite append_cons. cbn [Py.splitlines_from].
    destruct (Py.is_linebreak c).
    + destruct (Ascii.eqb c Py.CR).
      * destruct rest as [|c' rest'].
        { exists []. split; [auto|]. cbn. done. }
        rewrite append_cons. destruct (Ascii.eqb c' Py.LF).
        -- destruct (IH None rest') as (extra & Hex & ->); [cbn in Hlen; lia|].
           by exists extra.
        -- rewrite <- append_cons.
           destruct (IH None (String c' rest')) as (extra & Hex & ->); [lia|].
           by exists extra.
      * destruct (IH None rest) as (extra & Hex & ->); [lia|]. by exists extra.
    + destruct (IH (Some (default EmptyString cur +:+ Py.chr c)) rest)
        as (extra & Hex & ->); [lia|].
      by exists extra.
Qed.

Lemma splitlines_from_text_newline_len (n : nat) (cur : option string) (s : string) :
  (String.length s <= n)%nat ->
  ends_in_text s = true ->
  Py.splitlines_from cur (s +:+ NL) = Py.splitlines_from cur s.
Proof.
  revert cur s. induction n as [|n IH]; intros cur s Hlen Hend.
  - destruct s; [done|cbn in Hlen; lia].
  - destruct s as [|c rest]; [done|].
    cbn [String.length] in Hlen. rewrite append_cons.
    destruct rest as [|c' rest'].
    { cbn in Hend. cbn [Py.splitlines_from].
      destruct (Py.is_linebreak c); [done|]. done. }
    assert (Hrest : ends_in_text (String c' rest') = true) by exact Hend.
    cbn [Py.splitlines_from].
    destruct (Py.is_linebreak c).
    + destruct (Ascii.eqb c Py.CR).
      * rewrite append_cons. destruct (Ascii.eqb_spec c' Py.LF) as [->|Hne].
        -- f_equal. apply IH; [cbn in Hlen; lia|].
           destruct rest'; [done|exact Hrest].
        -- rewrite <- append_cons. f_equal. apply IH; [lia|done].
      * f_equal. apply IH; [lia|done].
    + apply IH; [lia|done].
Qed.

Lemma lenient_lines_newline (s : string) :
  lenient_lines (s +:+ NL) = lenient_lines s.
Proof.
  unfold lenient_lines, Py.splitlines.
  destruct (splitlines_from_newline_len (String.length s) None s)
    as (extra & [->| ->] & ->); [lia| |].
  - by rewrite app_nil_r.
  - rewrite map_app, List.filter_app. cbn. by rewrite app_nil_r.
Qed.

Lemma compare_text_strict_lines cap actual expected :
  (compare_text cap actual expected true).1 = STATUS_AC
  <-> Py.splitlines actual = Py.splitlines expected.
Proof.
  unfold compare_text, compared_lines. cbn [andb].
  destruct (String.eqb_spec actual expected) as [->|_]; [done|].
  destruct (list_eqb _ _) eqn:Heq.
  - apply list_eqb_true in Heq. done.
  - apply list_eqb_false in Heq. cbn. split; [discriminate|done].
Qed.

Lemma compare_text_lenient_lines cap actual expected :
  compare_text cap actual expected false
  = if list_eqb (lenient_lines actual) (lenient_lines expected)
    then (STATUS_AC, EmptyString)
    else (STATUS_WA,
          Py.join NL (wa_report cap (lenient_lines actual) (lenient_lines expected))).
Proof.
  unfold compare_text, compared_lines. cbn [andb].
  by rewrite !process_lines_lenient.
Qed.

(** X1. Whatever strict comparison accepts, lenient comparison accepts. *)
Theorem strict_accept_implies_lenient_accept
    (cap cap' : option Z) (actual expected : string) :
  (compare_text cap actual expected true).1 = STATUS_AC ->
  compare_text cap' actual expected false = (STATUS_AC, EmptyString).
Proof.
  intros Hstrict%compare_text_strict_lines.
  rewrite compare_text_lenient_lines. unfold lenient_lines. rewrite Hstrict.
  by rewrite (proj2 (list_eqb_true _ _)).
Qed.

Lemma strict_accept_implies_lenient_accept_witness :
  (compare_text (Some 10) ("a b" +:+ NL) "a b" true).1 = STATUS_AC
  /\ compare_text None ("a b" +:+ NL) "a b" false = (STATUS_AC, EmptyString).
Proof.
  assert (H : (compare_text (Some 10) ("a b" +:+ NL) "a b" true).1 = STATUS_AC)
    by reflexivity.
  split; [exact H|].
  exact (strict_accept_implies_lenient_accept (Some 10) None _ _ H).
Defined.

(** X2. A text compared with itself is accepted in both modes, and the
    status does not depend on which of the two texts is the actual one. *)
Theorem compare_reflexive_and_symmetric
    (cap : option Z) (actual expected : string) (strict : bool) :
  compare_text cap actual actual strict = (STATUS_AC, EmptyString)
  /\ (compare_text cap actual expected strict).1
     = (compare_text cap expected actual strict).1.
Proof.
  split.
  - unfold compare_text. rewrite String.eqb_refl.
    destruct strict; cbn [andb]; [done|].
    by rewrite (proj2 (list_eqb_true _ _)).
  - unfold compare_text. rewrite (String.eqb_sym expected actual).
    destruct (strict && String.eqb actual expected); [done|].
    destruct (list_eqb (compared_lines strict actual) _) eqn:H1;
      destruct (list_eqb (compared_lines strict expected) _) eqn:H2; try done.
    + apply list_eqb_true in H1. apply list_eqb_false in H2. done.
    + apply list_eqb_false in H1. apply list_eqb_true in H2. done.
Qed.

(** X3. In lenient mode a newline added at the end of the actual or of the
    expected text changes nothing: the verdict and the report are the
    same. *)
Theorem lenient_ignores_final_newline (cap : option Z) (actual expected : string) :
  compare_text cap (actual +:+ NL) expected false = compare_text cap actual expected false
  /\ compare_text cap actual (expected +:+ NL) false
     = compare_text cap actual expected false.
Proof.
  rewrite !compare_text_lenient_lines, !lenient_lines_newline. done.
Qed.

(** X4. In strict mode a newline added after a text that ends in a
    complete line without its boundary changes nothing either. *)
Theorem strict_ignores_newline_after_text (cap : option Z) (actual expected : string) :
  ends_in_text actual = true ->
  compare_text cap (actual +:+ NL) actual true = (STATUS_AC, EmptyString)
  /\ (compare_text cap (actual +:+ NL) expected true).1
     = (compare_text cap actual expected true).1.
Proof.
  intros Hend.
  assert (Hlines : Py.splitlines (actual +:+ NL) = Py.splitlines actual).
  { apply (splitlines_from_text_newline_len (String.length actual)); [lia|done]. }
  split.
  - unfold compare_text, compared_lines. cbn [andb].
    destruct (String.eqb _ _); [done|].
    by rewrite Hlines, (proj2 (list_eqb_true _ _)).
  - destruct (decide (Py.splitlines actual = Py.splitlines expected)) as [Heq|Hne].
    + rewrite (proj2 (compare_text_strict_lines cap actual expected) Heq).
      apply compare_text_strict_lines. by rewrite Hlines.
    + assert (H1 : (compare_text cap actual expected true).1 <> STATUS_AC)
        by (by rewrite compare_text_strict_lines).
      assert (H2 : (compare_text cap (actual +:+ NL) expected true).1 <> STATUS_AC)
        by (by rewrite compare_text_strict_lines, Hlines).
      revert H1 H2. unfold compare_text.
      destruct (true && String.eqb actual expected); [done|].
      destruct (true && String.eqb (actual +:+ NL) expected); [done|].
      do 2 destruct (list_eqb _ _); done.
Qed.

Lemma strict_ignores_newline_after_text_witness :
  ends_in_text "hello, Ada" = true
  /\ compare_text None ("hello, Ada" +:+ NL) "hello, Ada" true
     = (STATUS_AC, EmptyString).
Proof.
  assert (H : ends_in_text "hello, Ada" = true) by reflexivity.
  split; [exact H|].
  exact (proj1 (strict_ignores_newline_after_text None "hello, Ada" "hello, Ada" H)).
Defined.

(** ** The report of a wrong answer *)

Lemma mismatches_nil (act exp : list string) :
  mismatches act exp = []
  <-> forall i a, act !! i = Some a -> a = expected_at exp i.
Proof.
  split.
  - intros Hnil i a Hi.
    destruct (String.eqb_spec a (expected_at exp i)) as [|Hne]; [done|].
    assert (Hin : (i, a, expected_at exp i) ∈ mismatches act exp)
      by (by apply elem_of_mismatches).
    rewrite Hnil in Hin. by apply elem_of_nil in Hin.
  - intros Hall. destruct (mismatches act exp) as [|[[i a] e] ms] eqn:Hms; [done|].
    assert (Hin : (i, a, e) ∈ mismatches act exp) by (rewrite Hms; by left).
    apply elem_of_mismatches in Hin as (Hi & -> & Hne).
    by specialize (Hall i a Hi).
Qed.

Lemma expected_then_eof (act exp : list string) :
  (mismatches act exp = [] /\ (length exp <= length act)%nat)
  <-> exists k, act = exp ++ replicate k EOF_MARK.
Proof.
  rewrite mismatches_nil. split.
  - intros [Hall Hlen]. exists (length act - length exp)%nat.
    apply list_eq. intros i.
    destruct (act !! i) as [a|] eqn:Hi.
    + rewrite (Hall i a Hi). unfold expected_at.
      destruct (exp !! i) as [e|] eqn:He.
      * by rewrite (lookup_app_l_Some _ _ _ _ He).
      * apply lookup_ge_None in He. apply lookup_lt_Some in Hi.
        rewrite lookup_app_r by done. cbn [default]. symmetry.
        apply lookup_replicate_2. lia.
    + apply lookup_ge_None in Hi. symmetry. apply lookup_ge_None.
      rewrite length_app, length_replicate. lia.
  - intros [k ->]. split; [|rewrite length_app; lia].
    intros i a Hi. unfold expected_at.
    destruct (exp !! i) as [e|] eqn:He.
    + rewrite (lookup_app_l_Some _ _ _ _ He) in Hi. by simplify_eq.
    + apply lookup_ge_None in He. rewrite lookup_app_r in Hi by done.
      apply lookup_replicate in Hi as [-> _]. done.
Qed.

Lemma wa_report_spec_nil (cap : option Z) (act exp : list string) :
  cap_ok cap ->
  wa_report_spec cap act exp = []
  <-> mismatches act exp = [] /\ (length exp <= length act)%nat.
Proof.
  intros Hcap. unfold wa_report_spec, insufficient_note.
  destruct (Nat.ltb_spec (length act) (length exp)) as [Hlt|Hge].
  - split; [|intros [_ ?]; lia].
    destruct cap; intros H; apply app_eq_nil in H as [_ H]; done.
  - destruct cap as [m|]; cbn [app]; cbn in Hcap.
    + destruct (Z.ltb_spec m (Z.of_nat (length (mismatches act exp)))) as [Hm|Hm].
      * split; [intros H; by apply app_eq_nil in H as [_ H]|].
        intros [Hnil _]. rewrite Hnil in Hm. cbn in Hm. lia.
      * rewrite app_nil_r, firstn_all2 by lia.
        split; [intros H%map_eq_nil; done|intros [-> _]; done].
    + rewrite app_nil_r. split; [intros H%map_eq_nil; done|intros [-> _]; done].
Qed.

Lemma join_head_nonempty (sep p : string) (rest : list string) :
  p <> EmptyString -> Py.join sep (p :: rest) <> EmptyString.
Proof. destruct p; [done|]. destruct rest; done. Qed.

Lemma wa_report_spec_nonempty (cap : option Z) (act exp : list string) :
  Forall (fun s => s <> EmptyString) (wa_report_spec cap act exp).
Proof.
  unfold wa_report_spec, insufficient_note.
  assert (Hr : forall ms, Forall (fun s => s <> EmptyString) (map render ms)).
  { intros ms. apply Forall_forall. intros s [m [-> _]]%list_elem_of_fmap. done. }
  destruct cap as [m|]; rewrite ?Forall_app; repeat split; try apply Hr.
  - destruct (_ <? _)%nat; by repeat constructor.
  - destruct (m <? _); by repeat constructor.
  - destruct (_ <? _)%nat; by repeat constructor.
Qed.

(** X5. A wrong answer comes with an empty report exactly when the actual
    lines are the expected lines followed by one or more lines that read
    [<EOF>]: such a line equals the stand-in for a missing expected line and
    is not counted as a difference.  (For a cap that is unset or not
    negative.) *)
Theorem wrong_answer_without_report_iff
    (cap : option Z) (actual expected : string) (strict : bool) :
  cap_ok cap ->
  compare_text cap actual expected strict = (STATUS_WA, EmptyString)
  <-> exists k,
      compared_lines strict actual
      = compared_lines strict expected ++ replicate (S k) EOF_MARK.
Proof.
  intros Hcap.
  set (act := compared_lines strict actual). set (exp := compared_lines strict expected).
  assert (Hbody : (if list_eqb act exp then (STATUS_AC, EmptyString)
                   else (STATUS_WA, Py.join NL (wa_report cap act exp)))
                  = (STATUS_WA, EmptyString)
                  <-> exists k, act = exp ++ replicate (S k) EOF_MARK).
  { destruct (list_eqb act exp) eqn:Heq.
    - apply list_eqb_true in Heq. split; [done|].
      intros [k Hk]. apply (f_equal length) in Hk.
      rewrite Heq, length_app in Hk. cbn in Hk. lia.
    - apply list_eqb_false in Heq. rewrite wa_report_refines. split.
      + intros [= Hjoin].
        assert (Hnil : wa_report_spec cap act exp = []).
        { pose proof (wa_report_spec_nonempty cap act exp) as Hne.
          destruct (wa_report_spec cap act exp) as [|p rest]; [done|].
          apply Forall_cons in Hne as [Hp _].
          by apply (join_head_nonempty NL p rest) in Hp. }
        apply wa_report_spec_nil in Hnil; [|done].
        apply expected_then_eof in Hnil as [[|k] Hk]; [|by exists k].
        cbn in Hk. by rewrite app_nil_r in Hk.
      + intros [k Hk].
        assert (Hnil : wa_report_spec cap act exp = []).
        { apply wa_report_spec_nil; [done|]. apply expected_then_eof. eauto. }
        by rewrite Hnil. }
  unfold compare_text. fold act exp.
  destruct strict; cbn [andb]; [|done].
  destruct (String.eqb_spec actual expected) as [Heq|_]; [|done].
  split; [done|]. intros [k Hk]. apply (f_equal length) in Hk.
  subst act exp. rewrite Heq, length_app in Hk. cbn in Hk. lia.
Qed.

Lemma wrong_answer_without_report_iff_witness :
  cap_ok (Some 10)
  /\ compare_text (Some 10) ("x" +:+ NL +:+ "<EOF>") "x" true
     = (STATUS_WA, EmptyString).
Proof.
  assert (H : cap_ok (Some 10)) by (cbn; lia).
  split; [exact H|].
  apply (proj2 (wrong_answer_without_report_iff (Some 10)
                  ("x" +:+ NL +:+ "<EOF>") "x" true H)).
  exists 0%nat. reflexivity.
Defined.

(** ** The printed report of a wrong answer *)

Lemma one_line_app (a b : string) : one_line (a +:+ b) = one_line a && one_line b.
Proof.
  induction a as [|c a IH]; [done|]. rewrite append_cons. cbn [one_line].
  rewrite IH. by rewrite andb_assoc.
Qed.

Lemma repr_char_one_line (c : ascii) :
  one_line (Py.repr_char Py.QUOTE c) = true /\ one_line (Py.repr_char Py.DQUOTE c) = true.
Proof. destruct c as [[] [] [] [] [] [] [] []]; vm_compute; done. Qed.

Lemma repr_one_line (s : string) : one_line (Py.repr s) = true.
Proof.
  unfold Py.repr.
  assert (Hbody : forall q, q = Py.QUOTE \/ q = Py.DQUOTE ->
                            one_line (Py.repr_body q s) = true).
  { intros q Hq. induction s as [|c s IH]; [done|]. cbn [Py.repr_body].
    rewrite one_line_app, IH, andb_true_r.
    destruct Hq as [-> | ->]; apply repr_char_one_line. }
  destruct (Py.contains _ s && _); rewrite !one_line_app, Hbody; auto.
Qed.

Lemma str_of_int_one_line (z : Z) : one_line (Py.str_of_int z) = true.
Proof.
  unfold Py.str_of_int.
  assert (Hu : forall d, one_line (NilEmpty.string_of_uint d) = true)
    by (induction d; done).
  assert (Hz : forall d, one_line (NilZero.string_of_uint d) = true)
    by (intros [| | | | | | | | | |]; first [done | apply Hu]).
  destruct (Z.to_int z) as [d|d]; cbn [NilZero.string_of_int]; [apply Hz|].
  cbn [one_line]. by rewrite Hz.
Qed.

Lemma splitlines_from_one_line (p s : string) (l : string) :
  one_line p = true ->
  Py.splitlines_from (Some l) (p +:+ s) = Py.splitlines_from (Some (l +:+ p)) s.
Proof.
  revert l. induction p as [|c p IH]; intros l Hp.
  - by rewrite append_nil_r.
  - cbn [one_line] in Hp. apply andb_true_iff in Hp as [Hc Hp].
    rewrite append_cons. cbn [Py.splitlines_from].
    destruct (Py.is_linebreak c); [done|]. cbn [default].
    rewrite IH by done. by rewrite append_assoc.
Qed.

Lemma splitlines_line_then (p s : string) :
  one_line p = true ->
  Py.splitlines (p +:+ NL +:+ s) = p :: Py.splitlines s.
Proof.
  intros Hp. unfold Py.splitlines. destruct p as [|c p]; [done|].
  cbn [one_line] in Hp. apply andb_true_iff in Hp as [Hc Hp].
  rewrite append_cons. cbn [Py.splitlines_from].
  destruct (Py.is_linebreak c); [done|]. cbn [default].
  by rewrite splitlines_from_one_line.
Qed.

Lemma splitlines_one_line (p : string) :
  one_line p = true -> p <> EmptyString -> Py.splitlines p = [p].
Proof.
  intros Hp Hne. unfold Py.splitlines. destruct p as [|c p]; [done|].
  cbn [one_line] in Hp. apply andb_true_iff in Hp as [Hc Hp].
  cbn [Py.splitlines_from]. destruct (Py.is_linebreak c); [done|]. cbn [default].
  pose proof (splitlines_from_one_line p EmptyString (EmptyString +:+ Py.chr c) Hp) as H.
  rewrite append_nil_r in H. rewrite H. done.
Qed.

(** Lines joined by newlines split back into themselves. *)
Lemma splitlines_join (ls : list string) :
  Forall (fun p => one_line p = true /\ p <> EmptyString) ls ->
  Py.splitlines (Py.join NL ls) = ls.
Proof.
  induction 1 as [|p ls [Hp Hne] Hls IH]; [done|].
  destruct ls as [|q ls]; [by apply splitlines_one_line|].
  change (Py.join NL (p :: q :: ls)) with (p +:+ NL +:+ Py.join NL (q :: ls)).
  by rewrite splitlines_line_then, IH.
Qed.

Lemma render_two_lines (m : nat * string * string) :
  render m = got_line m +:+ NL +:+ expect_line m.
Proof.
  unfold render, diff_entry, got_line, expect_line.
  by rewrite !append_assoc.
Qed.

Lemma join_render (ms : list (nat * string * string)) (tail : list string) :
  Py.join NL (map render ms ++ tail)
  = Py.join NL (flat_map (fun m => [got_line m; expect_line m]) ms ++ tail).
Proof.
  induction ms as [|m ms IH]; [done|].
  cbn [map flat_map app]. rewrite render_two_lines.
  change (Py.join NL (got_line m :: expect_line m :: ?l))
    with (got_line m +:+ NL +:+ Py.join NL (expect_line m :: l)).
  destruct (map render ms ++ tail) as [|x xs] eqn:Hx.
  - apply app_eq_nil in Hx as [Hms ->]. apply map_eq_nil in Hms as ->. done.
  - change (Py.join NL ((got_line m +:+ NL +:+ expect_line m) :: x :: xs))
      with ((got_line m +:+ NL +:+ expect_line m) +:+ NL +:+ Py.join NL (x :: xs)).
    rewrite IH.
    destruct (flat_map _ ms ++ tail) as [|y ys] eqn:Hy.
    + apply app_eq_nil in Hy as [Hms ->].
      destruct ms; [done|]. done.
    + change (Py.join NL (expect_line m :: y :: ys))
        with (expect_line m +:+ NL +:+ Py.join NL (y :: ys)).
      by rewrite !append_assoc.
Qed.

Lemma report_lines_clean (ms : list (nat * string * string)) (tail : list string) :
  Forall (fun p => one_line p = true /\ p <> EmptyString) tail ->
  Forall (fun p => one_line p = true /\ p <> EmptyString)
         (flat_map (fun m => [got_line m; expect_line m]) ms ++ tail).
Proof.
  intros Htail. apply Forall_app. split; [|done].
  induction ms as [|m ms IH]; [constructor|]. cbn [flat_map app].
  constructor; [|constructor; [|done]].
  - split; [|done]. unfold got_line.
    by rewrite !one_line_app, str_of_int_one_line, repr_one_line.
  - split; [|done]. unfold expect_line. by rewrite one_line_app, repr_one_line.
Qed.

(** X6. The printed block of a wrong answer has, after its two heading
    lines, exactly two lines for each rendered mismatch, then the
    insufficient-lines note and the summary when they apply: since [repr]
    escapes every line boundary, no content of the compared texts can break
    or add a line of the report. *)
Theorem printed_report_has_two_lines_per_mismatch
    (ff : float_format) (self : OnlineJudgeTester) (cap : option Z)
    (name out actual expected : string) (times : list millis)
    (strict show_raw_output : bool) :
  compared_lines strict actual <> compared_lines strict expected ->
  let act := compared_lines strict actual in
  let exp := compared_lines strict expected in
  let ms := mismatches act exp in
  let count := Z.of_nat (length ms) in
  let shown := match cap with None => ms | Some m => take (Z.to_nat m) ms end in
  let summary :=
    match cap with
    | Some m => if m <? count then [more_differences (count - m)] else []
    | None => []
    end in
  let result :=
    mkTestResult name STATUS_WA times out (compare_text cap actual expected strict).2 in
  _print_test_result ff self result show_raw_output
  = [("[" +:+ name +:+ "] Status: WA | Time: " +:+ time_str ff times)%string;
     "  [Wrong Answer Info]"%string]
    ++ map (fun line => "    " +:+ line)
         (flat_map (fun m => [got_line m; expect_line m]) shown
          ++ insufficient_note act exp ++ summary)
    ++ (if show_raw_output then raw_output_block "  [Raw Output]" result else [])
    ++ [RULE].
Proof.
  intros Hne act exp ms count shown summary result.
  assert (Hmsg : error_message result
                 = Py.join NL (map render shown ++ insufficient_note act exp ++ summary)).
  { subst result. cbn [error_message]. unfold compare_text. fold act exp.
    apply list_eqb_false in Hne. fold act exp in Hne. rewrite Hne.
    assert (Hrep : wa_report cap act exp
                   = map render shown ++ insufficient_note act exp ++ summary).
    { rewrite wa_report_refines. unfold wa_report_spec. fold ms count.
      subst shown summary. destruct cap; [done|by rewrite app_nil_r]. }
    destruct strict; cbn [andb]; [|by rewrite Hrep].
    destruct (String.eqb_spec actual expected) as [->|_]; [|by rewrite Hrep].
    apply list_eqb_false in Hne. done. }
  unfold _print_test_result. rewrite Hmsg. cbn [status case_name execution_times].
  change (String.eqb STATUS_WA STATUS_WA) with true. cbn iota.
  rewrite join_render, splitlines_join.
  - cbn [app]. done.
  - apply report_lines_clean. apply Forall_app. split.
    + unfold insufficient_note. destruct (_ <? _)%nat; by repeat constructor.
    + subst summary. destruct cap as [m|]; [|constructor].
      destruct (m <? count); [|constructor]. constructor; [|constructor].
      split; [|done]. unfold more_differences.
      by rewrite !one_line_app, str_of_int_one_line.
Qed.

Lemma printed_report_has_two_lines_per_mismatch_witness :
  let fmt := {| fmt2 := fun _ => "1.00"%string; mean := fun _ => 1%Q |} in
  let text := ("a" +:+ NL +:+ "b")%string in
  compared_lines true text <> compared_lines true "a"
  /\ _print_test_result fmt demo_tester
       (mkTestResult "1" STATUS_WA [1%Q] text (compare_text (Some 10) text "a" true).2)
       false
     = ["[1] Status: WA | Time: 1.00ms";
        "  [Wrong Answer Info]";
        "    line 2: got:    'b'";
        "            expect: '<EOF>'";
        RULE]%string.
Proof.
  intros fmt text.
  assert (H : compared_lines true text <> compared_lines true "a")
    by (vm_compute; discriminate).
  split; [exact H|].
  rewrite (printed_report_has_two_lines_per_mismatch fmt demo_tester (Some 10)
             "1" text text "a" [1%Q] true false H).
  reflexivity.
Defined.

(** ** Discovery *)

Section SortMore.

Context {A : Type}.
Implicit Types (x : key * A) (l r : list (key * A)).

Lemma ltb_asym (s t : string) : String.ltb s t = true -> String.ltb t s = false.
Proof.
  unfold String.ltb. rewrite (String.compare_antisym s t).
  by destruct (String.compare t s).
Qed.

Lemma key_lt_asym (a b : key) : key_lt a b = Ok true -> key_lt b a = Ok false.
Proof.
  destruct a, b; cbn; try done.
  - intros [= H]. f_equal. apply Z.ltb_lt in H. apply Z.ltb_ge. lia.
  - intros [= H]. f_equal. by apply ltb_asym.
Qed.

Lemma key_lt_irrefl_eqb (a b : key) : key_lt a b = Ok true -> key_eqb a b = false.
Proof.
  destruct a, b; cbn; try done.
  - intros [= H]. apply Z.ltb_lt in H. apply Z.eqb_neq. lia.
  - intros [= H]. destruct (String.eqb_spec s s0) as [->|]; [|done].
    apply ltb_asym in H as H'. congruence.
Qed.

Lemma insert_by_key_sorted x l r :
  insert_by_key x l = Ok r ->
  Sorted in_order l ->
  Sorted in_order r
  /\ (forall a, HdRel in_order a l -> in_order a x -> HdRel in_order a r).
Proof.
  revert r. induction l as [|y l IH]; intros r; cbn [insert_by_key].
  - intros [= <-] _. split; [by repeat constructor|]. intros a _ Ha. by constructor.
  - destruct (key_lt y.1 x.1) as [[|]|e] eqn:Hlt; [| |done].
    + destruct (insert_by_key x l) as [r'|e] eqn:Hins; [|done]. intros [= <-] Hs.
      apply Sorted_inv in Hs as [Hs Hhd].
      destruct (IH r' eq_refl Hs) as [Hs' Hrel]. split.
      * constructor; [done|]. apply Hrel; [done|]. by apply key_lt_asym.
      * intros a Ha _. apply HdRel_inv in Ha. by constructor.
    + intros [= <-] Hs. split.
      * constructor; [done|]. by constructor.
      * intros a _ Ha. by constructor.
Qed.

Lemma sort_keyed_sorted l r : sort_keyed l = Ok r -> Sorted in_order r.
Proof.
  revert r. induction l as [|x l IH]; intros r; cbn [sort_keyed].
  - intros [= <-]. constructor.
  - destruct (sort_keyed l) as [r'|e]; [|done]. intros Hins.
    by apply (insert_by_key_sorted _ _ _ Hins), IH.
Qed.

(** Keys of one kind always sort. *)
Lemma insert_by_key_uniform x l :
  Forall (fun y => is_int_key y.1 = is_int_key x.1) l ->
  exists r, insert_by_key x l = Ok r.
Proof.
  induction 1 as [|y l Hy Hl [r IH]]; cbn [insert_by_key]; [eauto|].
  destruct (proj2 (key_lt_ok y.1 x.1) Hy) as [[|] ->]; [|eauto].
  rewrite IH. eauto.
Qed.

Lemma sort_keyed_uniform l (b : bool) :
  Forall (fun y => is_int_key y.1 = b) l -> exists r, sort_keyed l = Ok r.
Proof.
  induction 1 as [|x l Hx Hl [r IH]]; cbn [sort_keyed]; [eauto|].
  rewrite IH. apply insert_by_key_uniform.
  destruct (sort_keyed_ok _ _ IH) as [Hperm _]. rewrite Hperm.
  eapply Forall_impl; [exact Hl|]. cbn. intros y ->. done.
Qed.

(** Elements with the same key keep their order. *)
Lemma insert_by_key_stable x l r (k : key) :
  insert_by_key x l = Ok r ->
  List.filter (fun y => key_eqb y.1 k) r
  = List.filter (fun y => key_eqb y.1 k) (x :: l).
Proof.
  revert r. induction l as [|y l IH]; intros r; cbn [insert_by_key].
  - by intros [= <-].
  - destruct (key_lt y.1 x.1) as [[|]|e] eqn:Hlt; [| |done]; [|by intros [= <-]].
    destruct (insert_by_key x l) as [r'|e]; [|done]. intros [= <-].
    cbn [List.filter]. rewrite (IH r' eq_refl). cbn [List.filter].
    apply key_lt_irrefl_eqb in Hlt.
    destruct (key_eqb y.1 k) eqn:Hy, (key_eqb x.1 k) eqn:Hx; try done.
    exfalso. destruct y.1, x.1, k; cbn in *; try done.
    + apply Z.eqb_eq in Hy, Hx. apply Z.eqb_neq in Hlt. lia.
    + apply String.eqb_eq in Hy, Hx. apply String.eqb_neq in Hlt. congruence.
Qed.

Lemma sort_keyed_stable l r (k : key) :
  sort_keyed l = Ok r ->
  List.filter (fun y => key_eqb y.1 k) r = List.filter (fun y => key_eqb y.1 k) l.
Proof.
  revert r. induction l as [|x l IH]; intros r; cbn [sort_keyed].
  - by intros [= <-].
  - destruct (sort_keyed l) as [r'|e]; [|done]. intros Hins.
    rewrite (insert_by_key_stable _ _ _ k Hins). cbn [List.filter].
    by rewrite (IH r' eq_refl).
Qed.

End SortMore.

Lemma sort_by_ok {A} (f : A -> key) (l r : list A) :
  sort_by f l = Ok r ->
  exists kr, sort_keyed (map (fun a => (f a, a)) l) = Ok kr
             /\ r = map snd kr /\ kr = map (fun a => (f a, a)) r.
Proof.
  unfold sort_by. destruct (sort_keyed _) as [kr|e] eqn:Hs; [|done].
  intros [= <-]. exists kr. split; [done|]. split; [done|].
  destruct (sort_keyed_ok _ _ Hs) as [Hperm _].
  assert (Hall : Forall (fun x => x = (f x.2, x.2)) kr).
  { rewrite Hperm. apply Forall_forall. intros x [a [-> _]]%list_elem_of_fmap. done. }
  clear -Hall. induction Hall as [|x kr Hx _ IH]; [done|].
  cbn [map]. by rewrite <- IH, <- Hx.
Qed.

Lemma collect_listed (fsys : file_system) (self : OnlineJudgeTester) :
  _collect_test_cases fsys self = sort_by sort_key (listed_cases fsys self).
Proof.
  unfold _collect_test_cases, listed_cases.
  by destruct (dir_exists fsys (test_case_dir self)).
Qed.

(** X7. When discovery succeeds it returns the [*.in] files of the
    directory, each exactly once and paired with its [.out] file when that
    file exists; a missing directory gives no case and no error. *)
Theorem discovery_returns_every_input_once
    (fsys : file_system) (self : OnlineJudgeTester) (all_cases : list test_case) :
  _collect_test_cases fsys self = Ok all_cases ->
  all_cases ≡ₚ listed_cases fsys self
  /\ map fst all_cases ≡ₚ (if dir_exists fsys (test_case_dir self)
                           then glob_in fsys (test_case_dir self) else [])
  /\ (forall input_path expected, (input_path, expected) ∈ all_cases ->
        expected = (if file_exists fsys (with_suffix input_path ".out")
                    then Some (with_suffix input_path ".out") else None))
  /\ (dir_exists fsys (test_case_dir self) = false -> all_cases = []).
Proof.
  rewrite collect_listed. intros Hsort.
  destruct (sort_by_ok _ _ _ Hsort) as (kr & Hs & -> & Hkr).
  destruct (sort_keyed_ok _ _ Hs) as [Hperm _].
  assert (Hp : map snd kr ≡ₚ listed_cases fsys self).
  { rewrite Hperm, map_map. cbn. by rewrite map_id. }
  split; [done|]. split; [|split].
  - rewrite Hp. unfold listed_cases.
    destruct (dir_exists fsys (test_case_dir self)); [|done].
    rewrite map_map. cbn. by rewrite map_id.
  - intros input_path expected Hin. rewrite Hp in Hin. unfold listed_cases in Hin.
    destruct (dir_exists fsys (test_case_dir self)); [|by apply elem_of_nil in Hin].
    apply list_elem_of_fmap in Hin as (p & Heq & _). unfold pair_case in Heq.
    by simplify_eq.
  - intros Hdir. unfold listed_cases in Hp. rewrite Hdir in Hp.
    by apply Permutation_nil_r in Hp.
Qed.

Lemma discovery_returns_every_input_once_witness :
  _collect_test_cases demo_fs demo_tester
  = Ok [(mkPath "/work/test_case" "1" ".in", Some (mkPath "/work/test_case" "1" ".out"));
        (mkPath "/work/test_case" "2" ".in", None)]
  /\ map fst [(mkPath "/work/test_case" "1" ".in",
               Some (mkPath "/work/test_case" "1" ".out"));
              (mkPath "/work/test_case" "2" ".in", None)]
     ≡ₚ glob_in demo_fs "/work/test_case".
Proof.
  assert (H : _collect_test_cases demo_fs demo_tester
    = Ok [(mkPath "/work/test_case" "1" ".in", Some (mkPath "/work/test_case" "1" ".out"));
          (mkPath "/work/test_case" "2" ".in", None)]) by reflexivity.
  split; [exact H|].
  exact (proj1 (proj2 (discovery_returns_every_input_once demo_fs demo_tester _ H))).
Defined.

Lemma Sorted_keyed {A} (f : A -> key) (r : list A) :
  Sorted in_order (map (fun a => (f a, a)) r) ->
  Sorted (fun a b => key_lt (f b) (f a) = Ok false) r.
Proof.
  induction r as [|a r IH]; [constructor|]. cbn [map]. intros Hs.
  apply Sorted_inv in Hs as [Hs Hhd]. constructor; [by apply IH|].
  destruct r as [|b r]; [constructor|]. cbn [map] in Hhd.
  apply HdRel_inv in Hhd. by constructor.
Qed.

Lemma listed_kind (fsys : file_system) (self : OnlineJudgeTester) (b : bool) :
  Forall (fun p => has_digit (stem p) = b) (glob_in fsys (test_case_dir self)) ->
  Forall (fun y : key * test_case => is_int_key y.1 = b)
         (map (fun c => (sort_key c, c)) (listed_cases fsys self)).
Proof.
  intros Hall. unfold listed_cases.
  destruct (dir_exists fsys (test_case_dir self)); [|constructor].
  rewrite map_map. apply Forall_fmap. eapply Forall_impl; [exact Hall|].
  intros p Hp. cbn. by rewrite sort_key_kind.
Qed.

Lemma collect_uniform (fsys : file_system) (self : OnlineJudgeTester) (b : bool) :
  Forall (fun p => has_digit (stem p) = b) (glob_in fsys (test_case_dir self)) ->
  exists all_cases,
    _collect_test_cases fsys self = Ok all_cases
    /\ Sorted (fun a b => key_lt (sort_key b) (sort_key a) = Ok false) all_cases
    /\ Forall (fun c => is_int_key (sort_key c) = b) all_cases.
Proof.
  intros Hall. rewrite collect_listed.
  destruct (sort_keyed_uniform _ b (listed_kind fsys self b Hall)) as [kr Hkr].
  assert (Hsort : sort_by sort_key (listed_cases fsys self) = Ok (map snd kr))
    by (unfold sort_by; by rewrite Hkr).
  exists (map snd kr). split; [done|].
  destruct (sort_by_ok _ _ _ Hsort) as (kr' & Hkr' & _ & Heq).
  assert (Hsame : kr' = kr) by congruence. rewrite Hsame in Heq. clear Hkr' Hsame.
  split.
  - apply Sorted_keyed. rewrite <- Heq. by eapply sort_keyed_sorted.
  - destruct (sort_keyed_ok _ _ Hkr) as [Hperm _].
    pose proof (listed_kind fsys self b Hall) as Hk. rewrite <- Hperm in Hk.
    rewrite Heq in Hk. by apply Forall_fmap in Hk.
Qed.

(** X8. When every stem holds a digit, discovery succeeds and returns the
    cases in ascending order of the number read from the first run of
    digits. *)
Theorem discovery_orders_numbered_cases (fsys : file_system) (self : OnlineJudgeTester) :
  Forall (fun p => has_digit (stem p) = true) (glob_in fsys (test_case_dir self)) ->
  exists all_cases,
    _collect_test_cases fsys self = Ok all_cases
    /\ Sorted (fun a b => key_value (sort_key a) <= key_value (sort_key b)) all_cases
    /\ Forall (fun c => sort_key c = KInt (key_value (sort_key c))) all_cases.
Proof.
  intros Hall. destruct (collect_uniform fsys self true Hall) as (cs & Hc & Hs & Hk).
  exists cs. split; [done|].
  assert (Hint : Forall (fun c => sort_key c = KInt (key_value (sort_key c))) cs).
  { eapply Forall_impl; [exact Hk|]. intros c. cbn. destruct (sort_key c); cbn; done. }
  split; [|done].
  clear Hc Hk. induction Hs as [|a l Hs IH Hhd]; [constructor|].
  apply Forall_cons in Hint as [Ha Hl]. constructor; [by apply IH|].
  destruct Hhd as [|b l Hab]; constructor.
  apply Forall_cons in Hl as [Hb _]. rewrite Ha, Hb in Hab. cbn in Hab.
  injection Hab as Hab. apply Z.ltb_ge in Hab. by rewrite Ha, Hb.
Qed.

Lemma discovery_orders_numbered_cases_witness :
  Forall (fun p => has_digit (stem p) = true) (glob_in ties_fs (test_case_dir demo_tester))
  /\ exists all_cases,
       _collect_test_cases ties_fs demo_tester = Ok all_cases
       /\ Sorted (fun a b => key_value (sort_key a) <= key_value (sort_key b)) all_cases.
Proof.
  assert (H : Forall (fun p => has_digit (stem p) = true)
                     (glob_in ties_fs (test_case_dir demo_tester)))
    by (repeat constructor).
  split; [exact H|].
  destruct (discovery_orders_numbered_cases ties_fs demo_tester H) as (cs & Hc & Hs & _).
  exists cs. split; [exact Hc|exact Hs].
Defined.

(** X9. When no stem holds a digit, discovery succeeds and returns the
    cases in ascending order of their stems, compared character by
    character. *)
Theorem discovery_orders_named_cases (fsys : file_system) (self : OnlineJudgeTester) :
  Forall (fun p => has_digit (stem p) = false) (glob_in fsys (test_case_dir self)) ->
  exists all_cases,
    _collect_test_cases fsys self = Ok all_cases
    /\ Sorted (fun a b => String.ltb (stem b.1) (stem a.1) = false) all_cases
    /\ Forall (fun c => sort_key c = KStr (stem c.1)) all_cases.
Proof.
  intros Hall. destruct (collect_uniform fsys self false Hall) as (cs & Hc & Hs & Hk).
  exists cs. split; [done|].
  assert (Hstr : Forall (fun c => sort_key c = KStr (stem c.1)) cs).
  { eapply Forall_impl; [exact Hk|]. intros c. cbn. unfold sort_key.
    destruct (Py.findall_digits (stem c.1)); cbn; done. }
  split; [|done].
  clear Hc Hk. induction Hs as [|a l Hs IH Hhd]; [constructor|].
  apply Forall_cons in Hstr as [Ha Hl]. constructor; [by apply IH|].
  destruct Hhd as [|b l Hab]; constructor.
  apply Forall_cons in Hl as [Hb _]. rewrite Ha, Hb in Hab. cbn in Hab.
  by injection Hab.
Qed.

Lemma discovery_orders_named_cases_witness :
  let fsys := {| dir_exists := fun _ => true;
                 glob_in := fun d => [mkPath d "b" ".in"; mkPath d "a" ".in"];
                 file_exists := fun _ => false;
                 read_utf8 := fun _ => None;
                 read_latin1 := fun _ => EmptyString |} in
  Forall (fun p => has_digit (stem p) = false) (glob_in fsys (test_case_dir demo_tester))
  /\ exists all_cases,
       _collect_test_cases fsys demo_tester = Ok all_cases
       /\ Sorted (fun a b => String.ltb (stem b.1) (stem a.1) = false) all_cases.
Proof.
  intros fsys.
  assert (H : Forall (fun p => has_digit (stem p) = false)
                     (glob_in fsys (test_case_dir demo_tester)))
    by (repeat constructor).
  split; [exact H|].
  destruct (discovery_orders_named_cases fsys demo_tester H) as (cs & Hc & Hs & _).
  exists cs. split; [exact Hc|exact Hs].
Defined.

(** X10. Cases with the same key (as [b7] and [a07]) keep the order in
    which the directory listed them: the sort is stable. *)
Theorem discovery_keeps_listing_order_on_ties
    (fsys : file_system) (self : OnlineJudgeTester)
    (all_cases : list test_case) (k : key) :
  _collect_test_cases fsys self = Ok all_cases ->
  List.filter (fun c => key_eqb (sort_key c) k) all_cases
  = List.filter (fun c => key_eqb (sort_key c) k) (listed_cases fsys self).
Proof.
  rewrite collect_listed. intros Hsort.
  destruct (sort_by_ok _ _ _ Hsort) as (kr & Hs & -> & Hkr).
  pose proof (sort_keyed_stable _ _ k Hs) as Hst.
  assert (Hmap : forall l : list test_case,
    List.filter (fun y : key * test_case => key_eqb y.1 k) (map (fun c => (sort_key c, c)) l)
    = map (fun c => (sort_key c, c)) (List.filter (fun c => key_eqb (sort_key c) k) l)).
  { induction l as [|c l IH]; [done|]. cbn [map List.filter fst].
    destruct (key_eqb (sort_key c) k); cbn [map]; by rewrite IH. }
  remember (map snd kr) as r eqn:Hr. rewrite Hkr, !Hmap in Hst.
  apply (f_equal (map snd)) in Hst. rewrite !map_map in Hst. cbn in Hst.
  by rewrite !map_id in Hst.
Qed.

Lemma discovery_keeps_listing_order_on_ties_witness :
  _collect_test_cases ties_fs demo_tester
  = Ok [(mkPath "/work/test_case" "x3" ".in", None);
        (mkPath "/work/test_case" "b7" ".in", None);
        (mkPath "/work/test_case" "a07" ".in", None)]
  /\ List.filter (fun c => key_eqb (sort_key c) (KInt 7))
       [(mkPath "/work/test_case" "x3" ".in", None);
        (mkPath "/work/test_case" "b7" ".in", None);
        (mkPath "/work/test_case" "a07" ".in", None)]
     = List.filter (fun c => key_eqb (sort_key c) (KInt 7)) (listed_cases ties_fs demo_tester).
Proof.
  assert (H : _collect_test_cases ties_fs demo_tester
    = Ok [(mkPath "/work/test_case" "x3" ".in", None);
          (mkPath "/work/test_case" "b7" ".in", None);
          (mkPath "/work/test_case" "a07" ".in", None)]) by reflexivity.
  split; [exact H|].
  exact (discovery_keeps_listing_order_on_ties ties_fs demo_tester _ (KInt 7) H).
Defined.

(** X11. Discovery raises exactly when the directory exists and lists a
    stem with a digit beside a stem without one; what it raises is the
    TypeError of the comparison. *)
Theorem discovery_raises_iff_names_mix (fsys : file_system) (self : OnlineJudgeTester) :
  ((exists e, _collect_test_cases fsys self = Err e)
   <-> dir_exists fsys (test_case_dir self) = true
       /\ exists p q, p ∈ glob_in fsys (test_case_dir self)
                      /\ q ∈ glob_in fsys (test_case_dir self)
                      /\ has_digit (stem p) = true /\ has_digit (stem q) = false)
  /\ (forall e, _collect_test_cases fsys self = Err e -> exists msg, e = TypeError msg).
Proof.
  split; [|intros e; apply collect_err].
  split.
  - intros [e He]. unfold _collect_test_cases in He.
    destruct (dir_exists fsys (test_case_dir self)) eqn:Hdir; [|done].
    split; [done|]. cbn [negb] in He.
    destruct (decide (Forall (fun p => has_digit (stem p) = true)
                             (glob_in fsys (test_case_dir self)))) as [Hd|Hd].
    { destruct (collect_uniform fsys self true Hd) as (cs & Hc & _).
      unfold _collect_test_cases in Hc. rewrite Hdir in Hc. cbn [negb] in Hc.
      congruence. }
    destruct (decide (Forall (fun p => has_digit (stem p) = false)
                             (glob_in fsys (test_case_dir self)))) as [Hn|Hn].
    { destruct (collect_uniform fsys self false Hn) as (cs & Hc & _).
      unfold _collect_test_cases in Hc. rewrite Hdir in Hc. cbn [negb] in Hc.
      congruence. }
    apply not_Forall_Exists in Hd; [|apply _]. apply not_Forall_Exists in Hn; [|apply _].
    apply Exists_exists in Hd as (q & Hq & Hqd). apply Exists_exists in Hn as (p & Hp & Hpd).
    exists p, q. split; [done|]. split; [done|]. split.
    + by apply not_false_iff_true.
    + by apply not_true_iff_false.
  - intros (Hdir & p & q & Hp & Hq & Hpd & Hqd).
    unfold _collect_test_cases, sort_by. rewrite Hdir. cbn [negb].
    destruct (sort_keyed_mixed_raises
                (map (fun a => (sort_key a, a))
                     (map (pair_case fsys) (glob_in fsys (test_case_dir self))))
                (sort_key (pair_case fsys p), pair_case fsys p)
                (sort_key (pair_case fsys q), pair_case fsys q)) as [msg ->].
    + apply list_elem_of_fmap. exists (pair_case fsys p). split; [done|].
      apply list_elem_of_fmap. eauto.
    + apply list_elem_of_fmap. exists (pair_case fsys q). split; [done|].
      apply list_elem_of_fmap. eauto.
    + cbn [fst]. by rewrite sort_key_kind.
    + cbn [fst]. by rewrite sort_key_kind.
    + eauto.
Qed.

(** ** Filtering *)

Lemma int_from_pos (d : Decimal.uint) (acc : positive) :
  Py.int_from (Z.pos acc) (NilEmpty.string_of_uint d) = Z.pos (Pos.of_uint_acc d acc).
Proof.
  revert acc.
  induction d; intros acc;
    cbn [NilEmpty.string_of_uint Py.int_from Pos.of_uint_acc]; [done|..];
    rewrite <- IHd; f_equal;
    match goal with
    | |- context [Z.of_nat ?n] =>
        let v := eval vm_compute in (Z.of_nat n) in change (Z.of_nat n) with v
    end; lia.
Qed.

Lemma int_from_zero (d : Decimal.uint) :
  Py.int_from 0 (NilEmpty.string_of_uint d) = Z.of_N (Pos.of_uint d).
Proof.
  induction d; cbn [NilEmpty.string_of_uint Py.int_from Pos.of_uint]; [done|exact IHd|..];
    match goal with
    | |- context [Z.of_nat ?n] =>
        let v := eval vm_compute in (Z.of_nat n) in change (Z.of_nat n) with v
    end; cbn [Z.mul Z.add]; apply int_from_pos.
Qed.

Lemma all_digits_uint (d : Decimal.uint) :
  Py.all_digits (NilEmpty.string_of_uint d) = true.
Proof. induction d; cbn [NilEmpty.string_of_uint Py.all_digits]; [done|..]; by rewrite IHd. Qed.

(** [int(str(n)) = n], and [str(n)] is a digit string, for [n >= 0]. *)
Lemma int_str_of_int (n : Z) :
  0 <= n -> Py.isdigit (Py.str_of_int n) = true /\ Py.int (Py.str_of_int n) = n.
Proof.
  intros Hn. unfold Py.str_of_int.
  pose proof (DecimalZ.of_to n) as Hof.
  destruct (Z.to_int n) as [d|d] eqn:Hd.
  - cbn [NilZero.string_of_int]. cbn [Z.of_int] in Hof. unfold Z.of_uint in Hof.
    destruct d; [done|..]; cbn [NilZero.string_of_uint];
      (split; [unfold Py.isdigit; by rewrite all_digits_uint
              |unfold Py.int; by rewrite int_from_zero]).
  - destruct n; cbn in Hd; done || lia.
Qed.




Lemma filter_as_filter (all_cases : list test_case) (cases_to_run : option (list token)) :
  _filter_test_cases all_cases cases_to_run
  = match cases_to_run with
    | Some (t :: ts) =>
        List.filter (fun c => existsb (token_matches (stem c.1)) (t :: ts)) all_cases
    | _ => all_cases
    end.
Proof.
  unfold _filter_test_cases. destruct cases_to_run as [[|t ts]|]; [done| |done].
  cbn [requested negb]. by rewrite filter_loop_filter.
Qed.








(** X14. An integer token that is not negative selects the case named by
    its decimal numeral: the name printed from the number is a digit string
    whose value is the number again. *)
Theorem int_token_selects_its_numeral (n : Z) (output_path : option path) (dir : string) :
  0 <= n ->
  token_matches (Py.str_of_int n) (IntToken n) = true
  /\ Py.int (Py.str_of_int n) = n
  /\ _filter_test_cases [(mkPath dir (Py.str_of_int n) ".in", output_path)]
       (Some [IntToken n])
     = [(mkPath dir (Py.str_of_int n) ".in", output_path)].
Proof.
  intros Hn. destruct (int_str_of_int n Hn) as [Hd Hi].
  assert (Hm : token_matches (Py.str_of_int n) (IntToken n) = true).
  { cbn [token_matches]. rewrite Hd, Hi. by rewrite Z.eqb_refl. }
  split; [done|]. split; [done|].
  rewrite filter_as_filter. cbn [List.filter existsb fst stem].
  by rewrite Hm.
Qed.

Lemma int_token_selects_its_numeral_witness :
  0 <= 42 /\ token_matches "42" (IntToken 42) = true.
Proof.
  assert (H : 0 <= 42) by lia. split; [exact H|].
  exact (proj1 (int_token_selects_its_numeral 42 None EmptyString H)).
Defined.


(** ** Runs, results and reports *)

Section Runs.

Context {World : Type}.
Variable h : host World.
Variable self : OnlineJudgeTester.

Implicit Types (st : state World).

Lemma run_single_process_status input st :
  runner_status (run_status (_run_single_process h self input st).1).
Proof.
  unfold _run_single_process, runner_status.
  destruct (popen h _ (world st)) as [ev w].
  destruct ev as [rc out err d| |]; [destruct (rc =? 0)|..]; cbn; auto.
Qed.

Lemma attempts_status n input st :
  Forall (fun r => runner_status (run_status r)) (attempts h self n input st).1.
Proof.
  revert st. induction n as [|n IH]; intros st; [constructor|]. cbn [attempts].
  pose proof (run_single_process_status input st) as Hrun.
  destruct (_run_single_process h self input st) as [r st'].
  specialize (IH st'). destruct (attempts h self n input st') as [rs st''].
  cbn [fst] in *. by constructor.
Qed.

Lemma attempts_log n input st :
  log (attempts h self n input st).2
  = log st ++ replicate n (EvSpawn (request_for h self input)).
Proof.
  revert st. induction n as [|n IH]; intros st; [by rewrite app_nil_r|].
  cbn [attempts].
  pose proof (run_single_process_state h self input st) as Hst.
  destruct (_run_single_process h self input st) as [r st'].
  specialize (IH st'). destruct (attempts h self n input st') as [rs st''].
  cbn [snd] in *. rewrite IH, Hst. cbn [log replicate]. by rewrite <- app_assoc.
Qed.

(** What one case's runs leave behind, for a repeat count of at least 1. *)
Lemma execute_facts input_path repeat st :
  1 <= repeat ->
  let run := _execute_case_with_repeat h self input_path repeat st in
  exists k : nat,
    (1 <= k <= Z.to_nat repeat)%nat
    /\ log run.2 = log st ++ replicate k (EvSpawn (request_for h self (read_text h input_path)))
    /\ length run.1.1.1.2 = k
    /\ runner_status run.1.1.1.1
    /\ (run.1.1.1.1 = STATUS_AC -> k = Z.to_nat repeat /\ run.1.2 = EmptyString).
Proof.
  intros Hrepeat run.
  pose proof (execute_AC_no_error h self input_path repeat st) as Herr.
  fold run in Herr. subst run.
  unfold _execute_case_with_repeat in *. rewrite repeat_loop_answer in *.
  set (input := read_text h input_path) in *. set (n := Z.to_nat repeat) in *.
  set (all := (attempts h self n input st).1) in *.
  set (k := stop_after all) in *. cbn [fst snd] in *.
  assert (Hlen : length all = n) by apply attempts_length.
  destruct (stop_after_bounds all) as [Hle Hge]. fold k in Hle, Hge.
  assert (Hk : (1 <= k <= n)%nat).
  { split; [apply Hge; intros Hnil; rewrite Hnil in Hlen; cbn in Hlen; lia|lia]. }
  exists k. split; [done|]. split; [apply attempts_log|].
  unfold repeat_answer in *.
  destruct (last (take k all)) as [r|] eqn:Hlast.
  2:{ apply last_None in Hlast. apply (f_equal length) in Hlast.
      rewrite length_take in Hlast. cbn in Hlast. lia. }
  cbn [fst snd app] in *. split; [rewrite length_map, length_take; lia|].
  assert (Hin : r ∈ all).
  { apply last_Some_elem_of in Hlast.
    apply (elem_of_take _ _ _) in Hlast as (i & Hi & _).
    by eapply list_elem_of_lookup_2. }
  split.
  { pose proof (attempts_status n input st) as Hall. fold all in Hall.
    rewrite Forall_forall in Hall. by apply Hall. }
  intros Hac. split; [|by apply Herr].
  destruct (stop_after_prefix all) as [_ Hstop]. fold k in Hstop.
  destruct (decide (k < n)%nat) as [Hlt|]; [|lia].
  destruct Hstop as (r' & Hl & Hne); [lia|]. by simplify_eq.
Qed.

Lemma compare_text_status cap actual expected strict :
  (compare_text cap actual expected strict).1 = STATUS_AC
  \/ (compare_text cap actual expected strict).1 = STATUS_WA.
Proof.
  unfold compare_text. destruct (strict && _); [by left|].
  destruct (list_eqb _ _); [by left|by right].
Qed.

Lemma reports_app (l l' : list event) : reports (l ++ l') = reports l ++ reports l'.
Proof.
  induction l as [|e l IH]; [done|]. cbn [app reports].
  destruct e; by rewrite ?IH.
Qed.

Lemma reports_spawns k req : reports (replicate k (EvSpawn req)) = [].
Proof. induction k; done. Qed.

Lemma spawns_app (l l' : list event) :
  List.filter is_spawn (l ++ l') = List.filter is_spawn l ++ List.filter is_spawn l'.
Proof. apply List.filter_app. Qed.

Lemma spawns_replicate k req :
  length (List.filter is_spawn (replicate k (EvSpawn req))) = k.
Proof. induction k as [|k IH]; [done|]. cbn. by rewrite IH. Qed.

End Runs.

(** X16. With a repeat count of 0 or less no process is spawned: the case
    gets an empty status, no times, no output and no message, nothing is
    compared, and the printed line shows no status and the time [N/A]. *)
Theorem nonpositive_repeat_runs_nothing {World : Type}
    (h : host World) (self : OnlineJudgeTester) (ff : float_format)
    (strict_comparison show_raw_output : bool) (repeat : Z)
    (input_path : path) (expected_path : option path) (st : state World) :
  repeat <= 0 ->
  let blank := mkTestResult (stem input_path) EmptyString [] EmptyString EmptyString in
  _execute_case_with_repeat h self input_path repeat st
  = ((EmptyString, [], EmptyString, EmptyString), st)
  /\ run_case h self strict_comparison repeat show_raw_output
       (input_path, expected_path) st
     = (blank, emit (EvReport blank show_raw_output) st)
  /\ _print_test_result ff self blank false
     = [("[" +:+ stem input_path +:+ "] Status:  | Time: N/A")%string; RULE].
Proof.
  intros Hrepeat blank.
  assert (Hexec : _execute_case_with_repeat h self input_path repeat st
                  = ((EmptyString, [], EmptyString, EmptyString), st)).
  { unfold _execute_case_with_repeat. by replace (Z.to_nat repeat) with 0%nat by lia. }
  split; [done|]. split; [|done].
  unfold run_case. rewrite Hexec. done.
Qed.

Lemma nonpositive_repeat_runs_nothing_witness :
  0 <= 0
  /\ run_case demo_host demo_tester false 0 false
       (mkPath "/work/test_case" "1" ".in", None) demo_state
     = (mkTestResult "1" EmptyString [] EmptyString EmptyString,
        mkState 0%nat
          [EvReport (mkTestResult "1" EmptyString [] EmptyString EmptyString) false]).
Proof.
  assert (H : 0 <= 0) by lia. split; [exact H|].
  exact (proj1 (proj2 (nonpositive_repeat_runs_nothing demo_host demo_tester
    {| fmt2 := fun _ => EmptyString; mean := fun _ => 0%Q |} false false 0
    (mkPath "/work/test_case" "1" ".in") None demo_state H))).
Defined.

(** X17. For a repeat count of at least 1 the result of a case carries one
    of the five statuses and between 1 and [repeat] times; a result that is
    AC has an empty message; a result that is AC, WA or MISSING went
    through all [repeat] attempts. *)
Theorem case_result_is_well_formed {World : Type}
    (h : host World) (self : OnlineJudgeTester)
    (strict_comparison show_raw_output : bool) (repeat : Z)
    (c : test_case) (st : state World) :
  1 <= repeat ->
  let result := (run_case h self strict_comparison repeat show_raw_output c st).1 in
  known_status (status result) = true
  /\ case_name result = stem c.1
  /\ (1 <= length (execution_times result) <= Z.to_nat repeat)%nat
  /\ (status result = STATUS_AC -> error_message result = EmptyString)
  /\ (status result = STATUS_AC \/ status result = STATUS_WA
      \/ status result = STATUS_MISSING ->
      length (execution_times result) = Z.to_nat repeat).
Proof.
  intros Hrepeat result. subst result. destruct c as [input_path expected_path].
  unfold run_case.
  destruct (execute_facts h self input_path repeat st Hrepeat)
    as (k & Hk & _ & Hlen & Hst & Hac).
  destruct (_execute_case_with_repeat h self input_path repeat st)
    as [[[[s times] out] err] st1].
  cbn [fst snd] in *. unfold judge.
  destruct (String.eqb_spec s STATUS_AC) as [->|Hne]; cbn [andb].
  - destruct (Hac eq_refl) as [-> ->].
    destruct (compare_output self); [|cbn; repeat split; auto; lia].
    destruct expected_path as [p|]; [|cbn; repeat split; auto; try lia; done].
    unfold _compare_output.
    pose proof (compare_text_status (max_diffs self) out (read_text h p)
                  strict_comparison) as Hcs.
    pose proof (compare_text_AC (max_diffs self) out (read_text h p)
                  strict_comparison) as Hca.
    destruct (compare_text (max_diffs self) out (read_text h p) strict_comparison)
      as [cs cm].
    cbn [fst snd] in *.
    destruct Hcs as [-> | ->]; cbn; repeat split; auto; try lia; done.
  - cbn. split.
    + destruct Hst as [-> | [-> | ->]]; done.
    + split; [done|]. split; [lia|]. split; [done|].
      intros [? | [? | ?]]; subst s; [done| |];
        destruct Hst as [? | [? | ?]]; done.
Qed.

Lemma case_result_is_well_formed_witness :
  1 <= 3
  /\ known_status (status (run_case demo_host demo_tester false 3 false
                             (mkPath "/work/test_case" "2" ".in", None) demo_state).1)
     = true
  /\ length (execution_times (run_case demo_host demo_tester false 3 false
                                (mkPath "/work/test_case" "2" ".in", None) demo_state).1)
     = 3%nat.
Proof.
  assert (H : 1 <= 3) by lia. split; [exact H|].
  destruct (case_result_is_well_formed demo_host demo_tester false false 3
              (mkPath "/work/test_case" "2" ".in", None) demo_state H)
    as (Hs & _ & _ & _ & Hall).
  split; [exact Hs|]. apply Hall. right. right. reflexivity.
Defined.

Section Loop.

Context {World : Type}.
Variable h : host World.
Variable self : OnlineJudgeTester.

Implicit Types (st : state World).

Lemma run_case_log strict repeat show_raw (c : test_case) st :
  exists k : nat,
    log (run_case h self strict repeat show_raw c st).2
    = log st ++ replicate k (EvSpawn (request_for h self (read_text h c.1)))
      ++ [EvReport (run_case h self strict repeat show_raw c st).1 show_raw]
    /\ (1 <= repeat -> (1 <= k <= Z.to_nat repeat)%nat)
    /\ (repeat <= 0 -> k = 0%nat).
Proof.
  destruct c as [input_path expected_path]. unfold run_case.
  assert (Hlog : exists k : nat,
    log (_execute_case_with_repeat h self input_path repeat st).2
    = log st ++ replicate k (EvSpawn (request_for h self (read_text h input_path)))
    /\ (1 <= repeat -> (1 <= k <= Z.to_nat repeat)%nat)
    /\ (repeat <= 0 -> k = 0%nat)).
  { destruct (decide (1 <= repeat)) as [Hr|Hr].
    - destruct (execute_facts h self input_path repeat st Hr) as (k & Hk & Hl & _).
      exists k. split; [done|]. split; [done|lia].
    - exists 0%nat. split; [|split; [lia|done]].
      unfold _execute_case_with_repeat.
      replace (Z.to_nat repeat) with 0%nat by lia. cbn. by rewrite app_nil_r. }
  destruct Hlog as (k & Hl & Hk).
  destruct (_execute_case_with_repeat h self input_path repeat st)
    as [[[[s times] out] err] st1].
  cbn [fst snd] in *. destruct (judge _ _ _ _ _ _ _ _) as [s' err'].
  exists k. split; [|done]. cbn [fst snd emit log]. rewrite Hl. by rewrite <- app_assoc.
Qed.

Lemma run_cases_facts strict repeat show_raw (target : list test_case)
    (results : list TestResult) st :
  exists rs,
    (run_cases h self strict repeat show_raw target results st).1 = results ++ rs
    /\ map case_name rs = map (fun c : test_case => stem c.1) target
    /\ reports (log (run_cases h self strict repeat show_raw target results st).2)
       = reports (log st) ++ rs
    /\ exists spawned : nat,
         length (List.filter is_spawn
                   (log (run_cases h self strict repeat show_raw target results st).2))
         = (length (List.filter is_spawn (log st)) + spawned)%nat
         /\ (1 <= repeat ->
             (length target <= spawned <= Z.to_nat repeat * length target)%nat)
         /\ (repeat <= 0 -> spawned = 0%nat).
Proof.
  revert results st. induction target as [|c target IH]; intros results st.
  - exists []. cbn. rewrite !app_nil_r. repeat split; [].
    exists 0%nat. split; [lia|]. split; lia.
  - cbn [run_cases].
    destruct (run_case_log strict repeat show_raw c st) as (k & Hlog & Hk1 & Hk0).
    assert (Hname : case_name (run_case h self strict repeat show_raw c st).1 = stem c.1).
    { destruct c as [input_path expected_path]. unfold run_case.
      destruct (_execute_case_with_repeat _ _ _ _ _) as [[[[s times] out] err] st1].
      by destruct (judge _ _ _ _ _ _ _ _). }
    destruct (run_case h self strict repeat show_raw c st) as [result st'].
    cbn [fst snd] in *.
    destruct (IH (results ++ [result]) st') as (rs & Hres & Hnames & Hrep & n & Hn & Hn1 & Hn0).
    exists (result :: rs). split; [by rewrite Hres, <- app_assoc|].
    split; [cbn [map]; by rewrite Hname, Hnames|].
    split.
    { rewrite Hrep, Hlog, !reports_app, reports_spawns. cbn. by rewrite <- app_assoc. }
    exists (k + n)%nat. split.
    { rewrite Hn, Hlog, !spawns_app, !length_app, spawns_replicate. cbn. lia. }
    split; [intros Hr; specialize (Hk1 Hr); specialize (Hn1 Hr); cbn [length]; nia|].
    intros Hr. rewrite (Hk0 Hr), (Hn0 Hr). done.
Qed.

End Loop.

Lemma orchestrate_selected {World : Type} (h : host World) (self : OnlineJudgeTester)
    (strict : bool) (repeat : Z) (cases_to_run : option (list token))
    (show_raw : bool) (st : state World) (all_cases : list test_case) :
  _collect_test_cases (fs h) self = Ok all_cases ->
  _filter_test_cases all_cases cases_to_run <> [] ->
  orchestrate h self strict repeat cases_to_run show_raw st
  = (let target := _filter_test_cases all_cases cases_to_run in
     let st0 :=
       mkState (world st)
         (log st ++
          [EvPrint ("=== Running Tests on " +:+ path_name (target_script self) +:+ " ===");
           EvPrint ("Target: " +:+ path_str (target_script self));
           EvPrint ("Cases: " +:+ Py.str_of_int (Z.of_nat (length target)) +:+ " selected");
           EvPrint RULE]) in
     let '(results, st') := run_cases h self strict repeat show_raw target [] st0 in
     (Return results, st')).
Proof.
  intros Hc Hne. unfold orchestrate, bind. rewrite Hc. cbn [of_result ret].
  assert (Hall : bool_decide (all_cases = []) = false).
  { apply bool_decide_eq_false. intros ->. apply Hne.
    rewrite filter_as_filter. by destruct cases_to_run as [[|t ts]|]. }
  rewrite Hall. cbn [andb].
  rewrite (bool_decide_eq_false_2 _ Hne), andb_false_r.
  unfold tell, lift, emit. cbn [world log]. rewrite <- !app_assoc. cbn [app].
  done.
Qed.



(** X19. For a repeat count of at least 1 a run spawns at least one and at
    most [repeat] processes for each selected case, and nothing else spawns
    a process; for a repeat count of 0 or less it spawns none. *)
Theorem run_tests_spawn_count {World : Type}
    (h : host World) (self : OnlineJudgeTester)
    (sol_func : World -> sol_outcome * World)
    (strict_comparison : bool) (repeat : Z)
    (cases_to_run : option (list token)) (show_raw_output : bool)
    (st : state World) (all_cases : list test_case) :
  environ h !! MARKER <> Some "1"%string ->
  _collect_test_cases (fs h) self = Ok all_cases ->
  let target := _filter_test_cases all_cases cases_to_run in
  let st' :=
    (run_tests h self sol_func strict_comparison repeat cases_to_run show_raw_output st).2 in
  exists spawned : nat,
    length (List.filter is_spawn (log st'))
    = (length (List.filter is_spawn (log st)) + spawned)%nat
    /\ (1 <= repeat -> (length target <= spawned <= Z.to_nat repeat * length target)%nat)
    /\ (repeat <= 0 -> spawned = 0%nat).
Proof.
  intros Hm Hc target st'. subst st'. rewrite run_tests_unmarked by done.
  destruct (decide (target = [])) as [Hnil|Hne].
  - exists 0%nat. rewrite Hnil. cbn [length]. split; [|split; lia].
    unfold orchestrate, bind. rewrite Hc. cbn [of_result ret]. fold target.
    rewrite Hnil.
    destruct (bool_decide (all_cases = []) && negb (requested cases_to_run));
      [cbn; lia|].
    destruct (requested cases_to_run); cbn.
    + rewrite spawns_app. cbn. rewrite app_nil_r. lia.
    + rewrite !spawns_app. cbn. rewrite !app_nil_r. lia.
  - rewrite (orchestrate_selected h self strict_comparison repeat cases_to_run
               show_raw_output st all_cases Hc Hne).
    cbn zeta. fold target.
    match goal with |- context [run_cases h self ?s ?r ?w ?t [] ?st0] =>
      destruct (run_cases_facts h self s r w t [] st0)
        as (rs & _ & _ & _ & n & Hn & Hn1 & Hn0);
      destruct (run_cases h self s r w t [] st0) as [results st'] end.
    cbn [fst snd log] in *. exists n. split; [|done].
    rewrite Hn, spawns_app. cbn. rewrite app_nil_r. done.
Qed.

Lemma run_tests_spawn_count_witness :
  environ demo_host !! MARKER <> Some "1"%string
  /\ _collect_test_cases (fs demo_host) demo_tester
     = Ok [(mkPath "/work/test_case" "1" ".in", Some (mkPath "/work/test_case" "1" ".out"));
           (mkPath "/work/test_case" "2" ".in", None)]
  /\ exists spawned : nat,
       length (List.filter is_spawn
         (log (run_tests demo_host demo_tester demo_sol false 3 None false demo_state).2))
       = (0 + spawned)%nat
       /\ (2 <= spawned <= 6)%nat.
Proof.
  assert (Hm : environ demo_host !! MARKER <> Some "1"%string) by done.
  assert (Hc : _collect_test_cases (fs demo_host) demo_tester
     = Ok [(mkPath "/work/test_case" "1" ".in", Some (mkPath "/work/test_case" "1" ".out"));
           (mkPath "/work/test_case" "2" ".in", None)]) by reflexivity.
  split; [exact Hm|]. split; [exact Hc|].
  destruct (run_tests_spawn_count demo_host demo_tester demo_sol false 3 None false
              demo_state _ Hm Hc) as (n & Hn & Hn1 & _).
  exists n. split; [exact Hn|]. apply Hn1. lia.
Defined.

(** X20. A spawned process gets the parent's environment with two
    variables set to ["1"]: the recursion marker and [PYTHONUNBUFFERED];
    every other variable is passed on as it is. *)
Theorem child_environment_extends_parent {World : Type}
    (h : host World) (self : OnlineJudgeTester) (input_str var : string) :
  env (request_for h self input_str) !! var
  = (if bool_decide (var = MARKER \/ var = "PYTHONUNBUFFERED"%string)
     then Some "1"%string else environ h !! var)
  /\ cmd (request_for h self input_str)
     = [executable h; "-u"%string; path_str (target_script self)]
  /\ cwd (request_for h self input_str) = parent (target_script self)
  /\ stdin_text (request_for h self input_str) = input_str.
Proof.
  split; [|done]. cbn [env request_for]. unfold child_env.
  destruct (decide (var = MARKER)) as [->|Hm].
  { rewrite lookup_insert_eq. by rewrite bool_decide_eq_true_2 by auto. }
  rewrite lookup_insert_ne by done.
  destruct (decide (var = "PYTHONUNBUFFERED"%string)) as [->|Hp].
  { rewrite lookup_insert_eq. by rewrite bool_decide_eq_true_2 by auto. }
  rewrite lookup_insert_ne by done.
  rewrite bool_decide_eq_false_2; [done|]. intros [?|?]; done.
Qed.

(** ** The command line *)



(** X22. The constructor fails exactly when the script does not exist, and
    an empty directory argument counts as none: in both cases the test
    directory is [test_case] beside the script. *)
Theorem init_default_directory
    (rs : resolver) (fsys : file_system) (target_script_path : string)
    (time_limit : Z) (compare_output : bool) (max_diffs : option Z)
    (show_missing_output : bool) (dir : option string) :
  let script := resolve rs target_script_path in
  let init d :=
    __init__ rs fsys target_script_path time_limit compare_output d max_diffs
      show_missing_output in
  ((exists e, init dir = Err e) <-> file_exists fsys script = false)
  /\ init (Some EmptyString) = init None
  /\ (file_exists fsys script = true ->
      init None
      = Ok (mkTester time_limit compare_output max_diffs show_missing_output script
              (parent script +:+ "/test_case"))).
Proof.
  intros script init. subst init. unfold __init__. fold script.
  destruct (file_exists fsys script); cbn [negb].
  - split; [|done]. split; [by intros [e ?]|done].
  - split; [|done]. split; [done|eauto].
Qed.

Lemma init_default_directory_witness :
  file_exists demo_fs (resolve demo_resolver "1.in") = true
  /\ __init__ demo_resolver demo_fs "1.in" 3000 true None (Some 10) false
     = Ok (mkTester 3000 true (Some 10) false (mkPath "/work" "1" ".in")
             "/work/test_case").
Proof.
  assert (H : file_exists demo_fs (resolve demo_resolver "1.in") = true) by reflexivity.
  split; [exact H|].
  exact (proj2 (proj2 (init_default_directory demo_resolver demo_fs "1.in" 3000 true
                         (Some 10) false None)) H).
Defined.

(** ** The time line *)

Lemma max_from_spec (best : millis) (xs : list millis) :
  In (max_from best xs) (best :: xs)
  /\ forall x, In x (best :: xs) -> (x <= max_from best xs)%Q.
Proof.
  revert best. induction xs as [|y xs IH]; intros best; cbn [max_from].
  - split; [by left|]. intros x [<-|[]]. apply Qle_refl.
  - destruct (Qle_bool y best) eqn:Hle.
    + apply Qle_bool_iff in Hle. destruct (IH best) as [Hin Hmax]. split.
      * destruct Hin as [Hin|Hin]; [by left|right; by right].
      * intros x [<-|[<-|Hx]].
        -- apply Hmax. by left.
        -- eapply Qle_trans; [exact Hle|]. apply Hmax. by left.
        -- apply Hmax. by right.
    + assert (Hlt : (best < y)%Q).
      { apply Qnot_le_lt. intros H. apply Qle_bool_iff in H. congruence. }
      destruct (IH y) as [Hin Hmax]. split.
      * right. exact Hin.
      * intros x [<-|[<-|Hx]].
        -- eapply Qle_trans; [apply Qlt_le_weak; exact Hlt|]. apply Hmax. by left.
        -- apply Hmax. by left.
        -- apply Hmax. by right.
Qed.

Lemma min_from_spec (best : millis) (xs : list millis) :
  In (min_from best xs) (best :: xs)
  /\ forall x, In x (best :: xs) -> (min_from best xs <= x)%Q.
Proof.
  revert best. induction xs as [|y xs IH]; intros best; cbn [min_from].
  - split; [by left|]. intros x [<-|[]]. apply Qle_refl.
  - destruct (Qle_bool best y) eqn:Hle.
    + apply Qle_bool_iff in Hle. destruct (IH best) as [Hin Hmin]. split.
      * destruct Hin as [Hin|Hin]; [by left|right; by right].
      * intros x [<-|[<-|Hx]].
        -- apply Hmin. by left.
        -- eapply Qle_trans; [|exact Hle]. apply Hmin. by left.
        -- apply Hmin. by right.
    + assert (Hlt : (y < best)%Q).
      { apply Qnot_le_lt. intros H. apply Qle_bool_iff in H. congruence. }
      destruct (IH y) as [Hin Hmin]. split.
      * right. exact Hin.
      * intros x [<-|[<-|Hx]].
        -- eapply Qle_trans; [|apply Qlt_le_weak; exact Hlt]. apply Hmin. by left.
        -- apply Hmin. by left.
        -- apply Hmin. by right.
Qed.

(** X23. The time line is [N/A] without a sample and the one time with
    one sample; with more samples it shows the mean and then a minimum and
    a maximum that are samples themselves and bound every sample. *)
Theorem time_line_reports_true_extremes
    (ff : float_format) (t u : millis) (rest : list millis) :
  let times := t :: u :: rest in
  let lo := min_from t (u :: rest) in
  let hi := max_from t (u :: rest) in
  time_str ff [] = "N/A"%string
  /\ time_str ff [t] = fmt2 ff t +:+ "ms"
  /\ time_str ff times
     = fmt2 ff (mean ff times) +:+ "ms (min:" +:+ fmt2 ff lo +:+ ", max:" +:+ fmt2 ff hi
       +:+ ")"
  /\ In lo times /\ In hi times
  /\ (forall x, In x times -> (lo <= x)%Q /\ (x <= hi)%Q).
Proof.
  intros times lo hi.
  destruct (min_from_spec t (u :: rest)) as [Hlo Hmin].
  destruct (max_from_spec t (u :: rest)) as [Hhi Hmax].
  repeat split; try done; [by apply Hmin|by apply Hmax].
Qed.

(** ** The traceback of the child and an echoing candidate *)



Lemma attempts_echo {World : Type} (h : host World) (self : OnlineJudgeTester)
    (n : nat) (input : string) (st : state World) :
  echoes h ->
  Forall (fun r => run_status r = STATUS_AC /\ run_output r = input)
         (attempts h self n input st).1.
Proof.
  intros Hecho. revert st. induction n as [|n IH]; intros st; [constructor|].
  cbn [attempts].
  assert (Hrun : run_status (_run_single_process h self input st).1 = STATUS_AC
                 /\ run_output (_run_single_process h self input st).1 = input).
  { unfold _run_single_process.
    destruct (Hecho (request_for h self input) (world st)) as (err & d & w' & ->).
    done. }
  destruct (_run_single_process h self input st) as [r st'].
  specialize (IH st'). destruct (attempts h self n input st') as [rs st''].
  cbn [fst] in *. by constructor.
Qed.

(** X25. A candidate that writes its input back and exits with status 0
    gives, without comparison and for every repeat count of at least 1, a
    result that is AC, holds the input as output, has an empty message and
    one time for each of the [repeat] attempts. *)
Theorem echo_candidate_is_accepted {World : Type}
    (h : host World) (self : OnlineJudgeTester)
    (strict_comparison show_raw_output : bool) (repeat : Z)
    (input_path : path) (expected_path : option path) (st : state World) :
  echoes h ->
  compare_output self = false ->
  1 <= repeat ->
  let result :=
    (run_case h self strict_comparison repeat show_raw_output
       (input_path, expected_path) st).1 in
  status result = STATUS_AC
  /\ output result = read_text h input_path
  /\ error_message result = EmptyString
  /\ length (execution_times result) = Z.to_nat repeat.
Proof.
  intros Hecho Hcmp Hrepeat result. subst result. unfold run_case.
  pose proof (execute_facts h self input_path repeat st Hrepeat) as Hfacts.
  cbn zeta in Hfacts. destruct Hfacts as (k & Hk & _ & Hlen & _ & Hac).
  assert (Hrun : (_execute_case_with_repeat h self input_path repeat st).1.1.1.1
                 = STATUS_AC
                 /\ (_execute_case_with_repeat h self input_path repeat st).1.1.2
                    = read_text h input_path).
  { unfold _execute_case_with_repeat. rewrite repeat_loop_answer. cbn [fst].
    set (input := read_text h input_path).
    set (all := (attempts h self (Z.to_nat repeat) input st).1).
    pose proof (attempts_echo h self (Z.to_nat repeat) input st Hecho) as Hall.
    fold all in Hall.
    assert (Hlen' : length all = Z.to_nat repeat) by apply attempts_length.
    assert (Hstop : stop_after all = length all).
    { apply stop_after_all_AC. eapply Forall_impl; [exact Hall|]. by intros r [? _]. }
    rewrite Hstop, firstn_all. unfold repeat_answer.
    destruct (last all) as [r|] eqn:Hlast.
    - apply last_Some_elem_of in Hlast. rewrite Forall_forall in Hall.
      destruct (Hall r Hlast) as [Hs Ho]. cbn [fst snd]. done.
    - apply last_None in Hlast. rewrite Hlast in Hlen'. cbn in Hlen'. lia. }
  destruct (_execute_case_with_repeat h self input_path repeat st)
    as [[[[s times] out] err] st1].
  cbn [fst snd] in *. destruct Hrun as [-> ->].
  destruct (Hac eq_refl) as [-> ->].
  unfold judge. rewrite Hcmp, andb_false_r. cbn. done.
Qed.

Lemma echo_candidate_is_accepted_witness :
  echoes echo_host /\ compare_output
    (mkTester 3000 false (Some 10) false (mkPath "/work" "solve" ".py") "/work/test_case")
    = false
  /\ 1 <= 2
  /\ status (run_case echo_host
       (mkTester 3000 false (Some 10) false (mkPath "/work" "solve" ".py")
          "/work/test_case")
       false 2 false (mkPath "/work/test_case" "1" ".in", None) demo_state).1
     = STATUS_AC.
Proof.
  assert (He : echoes echo_host).
  { intros req w. exists EmptyString, 1%Q, (S w). reflexivity. }
  assert (Hr : 1 <= 2) by lia.
  split; [exact He|]. split; [reflexivity|]. split; [exact Hr|].
  exact (proj1 (echo_candidate_is_accepted echo_host
    (mkTester 3000 false (Some 10) false (mkPath "/work" "solve" ".py") "/work/test_case")
    false false 2 (mkPath "/work/test_case" "1" ".in") None demo_state He eq_refl Hr)).
Defined.
